(** * 3D-Viewer: the outline post-processing pass and the highlight tracker

    A shallow embedding of
    - [SelectedProductHighlighter] (EffectComposerHandler.ts, second part),
    - [AnimatedTextureBlurOutlinePass]
      (animated-texture-blur-outline-pass.ts),
    - the composite fragment shader of [ColorBlurOutlinePass]
      (ColorBlurOutlinePass.ts),
    together with the properties the specification states about them.

    JavaScript numbers are modelled as rationals [Q]: every finite double is
    a rational, and the operations the pass applies to sizes (division by
    two, [Math.round]) are exact on them.  In [OutlinePass] sums and
    quotients of times are taken in exact arithmetic too, which idealises
    the source: there every [+], [%], [/] and [*] rounds to a binary64
    double.  [OutlinePass64] repeats the animation clock of [render] and
    [renderOutline] over binary64 numbers, with that rounding. *)

From Stdlib Require Import ZArith QArith Qround Qminmax Bool List Lia Lqa.
From Stdlib Require SpecFloat.
From stdpp Require Import base option list gmap strings.
Import ListNotations.

(* ===================================================================== *)
(** ** JavaScript numbers *)
(* ===================================================================== *)

Module Js.

  (** [Math.round x]: the integer nearest to [x], ties towards +infinity. *)
Definition Math_round (x : Q) : Q := inject_Z (Qfloor (x + (1 # 2))%Q).

  (** Truncation towards zero, the integer quotient behind [%]. *)
Definition trunc (x : Q) : Z := Z.quot (Qnum x) (Zpos (Qden x)).

  (** [x % m] on numbers: the remainder has the sign of the dividend.
      [x % 0] is NaN in JavaScript; here the division by zero yields [x]. *)
Definition rem (x m : Q) : Q := (x - m * inject_Z (trunc (x / m)))%Q.

  (** [a ?? b] where [undefined] is [None]. *)
Definition nullish {A} (a : option A) (b : A) : A :=
    match a with Some v => v | None => b end.

End Js.

(* ===================================================================== *)
(** ** JavaScript numbers as binary64 doubles

    The IEEE 754 binary64 format: 53 bits of precision, exponents below
    1024, round to nearest, ties to even. *)
(* ===================================================================== *)

Module Binary64.
  Import SpecFloat.

Definition prec : Z := 53.
Definition emax : Z := 1024.

Definition double : Type := spec_float.

  (** [x + y], [x * y] and [x / y], each rounded once. *)
Definition add (x y : double) : double := SFadd prec emax x y.
Definition mul (x y : double) : double := SFmul prec emax x y.
Definition div (x y : double) : double := SFdiv prec emax x y.



  (** [x % y]: NaN when [x] is not finite or [y] is zero or NaN, [x] when [y]
      is infinite or [x] is zero; otherwise [x - y * trunc(x / y)], which is
      a double and needs no rounding, with the sign of [x] (also on a zero
      result). *)
Definition rem (x y : double) : double :=
    match x, y with
    | S754_nan, _ | _, S754_nan => S754_nan
    | S754_infinity _, _ => S754_nan
    | _, S754_zero _ => S754_nan
    | S754_zero _, _ => x
    | S754_finite _ _ _, S754_infinity _ => x
    | S754_finite sx mx ex, S754_finite _ my ey =>
        let e := Z.min ex ey in
        let X := Z.shiftl (Zpos mx) (ex - e) in
        let Y := Z.shiftl (Zpos my) (ey - e) in
        binary_normalize prec emax (cond_Zopp sx (Z.rem X Y)) e sx
    end.



End Binary64.

(* ===================================================================== *)
(** ** three.js [Layers]: a 32-bit membership mask

    The mask is kept as the unsigned reading of its 32 bits, bits 0 to 31 of
    the integer; JavaScript holds the same 32 bits as a signed number after
    [|=] and [&=].  A shift count is taken modulo 32, as [<<] does. *)
(* ===================================================================== *)

Module Layers.

  (** [1 << channel | 0]: the shift count is [channel] modulo 32. *)
Definition bit (channel : Z) : Z := Z.shiftl 1 (channel mod 32).

  (** A fresh [Layers] object is member of layer 0. *)
Definition initial : Z := 1%Z.

  (** [set(channel)]: member of that layer only. *)
Definition set (channel : Z) : Z := bit channel.

  (** [enable(channel)]: [mask |= 1 << channel]. *)
Definition enable (channel mask : Z) : Z := Z.lor mask (bit channel).

  (** [disable(channel)]: [mask &= ~(1 << channel)]. *)
Definition disable (channel mask : Z) : Z := Z.ldiff mask (bit channel).

  (** [isEnabled(channel)]: [(mask & (1 << channel | 0)) !== 0]. *)
Definition isEnabled (channel mask : Z) : bool := Z.testbit mask (channel mod 32).

End Layers.

(* ===================================================================== *)
(** ** The highlight tracker ([SelectedProductHighlighter]) *)
(* ===================================================================== *)

(** Scene objects are JavaScript objects compared by identity; they live in
    a store indexed by reference. *)
Definition ObjRef := nat.

(** What the tracker reads and writes of a [PolygonalObject3D]:
    [layers.mask] and [userData.related]. *)
Record Object3D := mkObject3D {
  layers : Z;
  related : option (list ObjRef)
}.

Definition HOVER_LAYER : Z := 1.
Definition SELECTED_LAYER : Z := 2.

Module Highlighter.

Record State := mkState {
    objects : gmap ObjRef Object3D;
    hoveredObject : option ObjRef;
    selectedObject : option ObjRef
  }.

Definition with_objects (s : State) (os : gmap ObjRef Object3D) : State :=
    mkState os (hoveredObject s) (selectedObject s).
Definition with_hovered (s : State) (h : option ObjRef) : State :=
    mkState (objects s) h (selectedObject s).
Definition with_selected (s : State) (x : option ObjRef) : State :=
    mkState (objects s) (hoveredObject s) x.

  (** [userData?.related ?? []]. *)
Definition relatedOf (os : gmap ObjRef Object3D) (o : ObjRef) : list ObjRef :=
    match os !! o with
    | Some ob => Js.nullish (related ob) []
    | None => []
    end.

  (** [object.layers.<op>(channel)] on the stored object. *)
Definition onLayers (f : Z -> Z) (o : ObjRef) (os : gmap ObjRef Object3D)
    : gmap ObjRef Object3D :=
    alter (fun ob => mkObject3D (f (layers ob)) (related ob)) o os.

  (** The [for (const sibling of userData.related)] loop. *)
Definition forSiblings (f : Z -> Z) (sibs : list ObjRef)
             (os : gmap ObjRef Object3D) : gmap ObjRef Object3D :=
    fold_left (fun acc sib => onLayers f sib acc) sibs os.

Definition applyLayer (f : Z -> Z) (o : ObjRef) (os : gmap ObjRef Object3D)
    : gmap ObjRef Object3D :=
    let os1 := onLayers f o os in
    match os !! o with
    | Some ob =>
        match related ob with
        | Some sibs => forSiblings f sibs os1
        | None => os1                (* !Array.isArray(userData?.related) *)
        end
    | None => os1
    end.

Definition enableLayer (o : ObjRef) (channel : Z) (s : State) : State :=
    with_objects s (applyLayer (Layers.enable channel) o (objects s)).

Definition disableLayer (o : ObjRef) (channel : Z) (s : State) : State :=
    with_objects s (applyLayer (Layers.disable channel) o (objects s)).

  (** [allA.some(a => allB.some(b => b === a))] after the [a === b] test. *)
Definition areObjectOrRelatedEqual (s : State) (a b : ObjRef) : bool :=
    if Nat.eqb a b then true
    else
      let allA := a :: relatedOf (objects s) a in
      let allB := b :: relatedOf (objects s) b in
      existsb (fun x => existsb (fun y => Nat.eqb y x) allB) allA.

Definition clearHoverMaterial (o : ObjRef) (s : State) : State :=
    disableLayer o HOVER_LAYER s.

Definition setHoverMaterial (o : ObjRef) (s : State) : State :=
    match selectedObject s with
    | Some sel =>
        if areObjectOrRelatedEqual s o sel then s
        else enableLayer o HOVER_LAYER s
    | None => enableLayer o HOVER_LAYER s
    end.

Definition setSelectedMaterial (o : ObjRef) (s : State) : State :=
    let s1 := enableLayer o SELECTED_LAYER s in
    match hoveredObject s1 with
    | Some h =>
        if areObjectOrRelatedEqual s1 o h then clearHoverMaterial h s1 else s1
    | None => s1
    end.

Definition clearSelectedMaterial (o : ObjRef) (s : State) : State :=
    let s1 := disableLayer o SELECTED_LAYER s in
    match hoveredObject s1 with
    | Some h =>
        if areObjectOrRelatedEqual s1 o h then setHoverMaterial h s1 else s1
    | None => s1
    end.

  (** The four subscriptions of the constructor. *)
Inductive Event :=
  | object3DPointerEnter (o : ObjRef)
  | object3DPointerLeave (o : ObjRef)
  | object3DSelected (o : ObjRef)
  | object3DDeselected (o : ObjRef).

Definition handle (e : Event) (s : State) : State :=
    match e with
    | object3DPointerEnter o =>
        setHoverMaterial o (with_hovered s (Some o))
    | object3DPointerLeave o =>
        clearHoverMaterial o (with_hovered s None)
    | object3DSelected o =>
        let s1 := match selectedObject s with
                  | Some old => clearSelectedMaterial old s
                  | None => s
                  end in
        setSelectedMaterial o (with_selected s1 (Some o))
    | object3DDeselected o =>
        clearSelectedMaterial o (with_selected s None)
    end.

Definition run (es : list Event) (s : State) : State :=
    fold_left (fun acc e => handle e acc) es s.

  (** [!!(this.hoveredObject || this.selectedObject)]. *)
Definition isAnyProductHighlighted (s : State) : bool :=
    match hoveredObject s, selectedObject s with
    | None, None => false
    | _, _ => true
    end.

  (** The mask of an object, for reading results back. *)
Definition maskOf (s : State) (o : ObjRef) : option Z :=
    layers <$> objects s !! o.

  (** A scene of freshly created objects, each given with its
      [userData.related], nothing highlighted. *)
Definition fresh (obs : list (ObjRef * option (list ObjRef))) : State :=
    mkState
      (list_to_map (map (fun p => (fst p, mkObject3D Layers.initial (snd p))) obs))
      None None.

End Highlighter.

(* ===================================================================== *)
(** ** Graphics objects the pass works on *)
(* ===================================================================== *)

Record Vector2 := mkVector2 { vx : Q; vy : Q }.

(** [THREE.Color]. *)
Record Color := mkColor { red : Q; green : Q; blue : Q }.

(** What the pass uses of a [WebGLRenderTarget]: its size.  [setSize]
    stores the two numbers it is given. *)
Record RenderTarget := mkRenderTarget { width : Q; height : Q }.

Definition RenderTarget_setSize (w h : Q) (_ : RenderTarget) : RenderTarget :=
  mkRenderTarget w h.

(** Identity of render targets: the five the pass owns, and those of its
    collaborators (the composer's buffers, targets handed to [setColors]). *)
Inductive RtRef :=
| MaskTarget
| BlurHorizontalTarget
| BlurVerticalTarget
| BlurHorizontalHalfTarget
| BlurVerticalHalfTarget2
| OtherTarget (n : nat).

(** Identity of textures: a [Texture] object of the pass's store, or the
    [.texture] of a render target. *)
Inductive TexRef :=
| TextureObj (n : nat)
| TargetTexture (r : RtRef).

Inductive ImageKind := CanvasElement | ImageElement.

(** [HTMLImageElement | HTMLCanvasElement]; [imageId] stands for the
    identity of the element. *)
Record Image := mkImage {
  imageId : nat;
  nodeName : ImageKind;
  imgWidth : Q;
  imgHeight : Q;
  naturalWidth : Q;
  naturalHeight : Q
}.

Inductive Wrapping := ClampToEdgeWrapping | RepeatWrapping.

Record Texture := mkTexture {
  wrapS : Wrapping;
  image : option Image;
  needsUpdate : bool
}.

(** [Texture | WebGLRenderTarget], the type of the two channel fields.  The
    type guards [isRenderTarget] and [isTexture] of is-threejs-type.ts are
    the case analysis on this type. *)
Inductive TextureOrTarget :=
| IsTexture (t : nat)
| IsRenderTarget (r : RtRef).

(** What [setColors] accepts for a channel. *)
Inductive ColorSource :=
| FromImage (i : Image)
| FromRenderTarget (r : RtRef).

Record ColorBlurOutlineTextures := mkColors {
  hover : option ColorSource;
  selected : option ColorSource
}.

Inductive Material :=
| HoverMaskMaterial
| SelectedMaskMaterial
| BlurMaterial
| BlurHalfMaterial
| OutlineMaterial
| MaterialCopy
| OtherMaterial (n : nat).        (* a material of the application *)

Inductive OutputMode := Normal | OutputModeOther (n : nat).

(** Draws and clears, in the order the renderer receives them; the target
    [None] is the screen. *)
Inductive DrawCall :=
| Clear (target : option RtRef)
| RenderScene (target : option RtRef) (override : option Material) (cameraLayers : Z)
| RenderQuad (target : option RtRef) (m : option Material).

(** The global state a render touches: the renderer, [scene.overrideMaterial]
    and [camera.layers.mask]. *)
Record Gfx := mkGfx {
  autoClear : bool;
  clearColor : Color;
  clearAlpha : Q;
  renderTarget : option RtRef;
  stencilTest : bool;
  overrideMaterial : option Material;
  cameraLayers : Z;
  calls : list DrawCall
}.

Module Renderer.

Definition setAutoClear (b : bool) (g : Gfx) : Gfx :=
    mkGfx b (clearColor g) (clearAlpha g) (renderTarget g) (stencilTest g)
          (overrideMaterial g) (cameraLayers g) (calls g).

  (** [setClearColor(color, alpha)]: copies the colour, stores the alpha. *)
Definition setClearColor (c : Color) (a : Q) (g : Gfx) : Gfx :=
    mkGfx (autoClear g) c a (renderTarget g) (stencilTest g)
          (overrideMaterial g) (cameraLayers g) (calls g).

Definition setRenderTarget (t : option RtRef) (g : Gfx) : Gfx :=
    mkGfx (autoClear g) (clearColor g) (clearAlpha g) t (stencilTest g)
          (overrideMaterial g) (cameraLayers g) (calls g).

Definition setStencilTest (b : bool) (g : Gfx) : Gfx :=
    mkGfx (autoClear g) (clearColor g) (clearAlpha g) (renderTarget g) b
          (overrideMaterial g) (cameraLayers g) (calls g).

Definition setOverrideMaterial (m : option Material) (g : Gfx) : Gfx :=
    mkGfx (autoClear g) (clearColor g) (clearAlpha g) (renderTarget g)
          (stencilTest g) m (cameraLayers g) (calls g).

Definition setCameraLayers (mask : Z) (g : Gfx) : Gfx :=
    mkGfx (autoClear g) (clearColor g) (clearAlpha g) (renderTarget g)
          (stencilTest g) (overrideMaterial g) mask (calls g).

Definition emit (c : DrawCall) (g : Gfx) : Gfx :=
    mkGfx (autoClear g) (clearColor g) (clearAlpha g) (renderTarget g)
          (stencilTest g) (overrideMaterial g) (cameraLayers g) (calls g ++ [c]).

  (** [renderer.clear()]. *)
Definition clear (g : Gfx) : Gfx := emit (Clear (renderTarget g)) g.

  (** [renderer.render(scene, camera)]. *)
Definition render (g : Gfx) : Gfx :=
    emit (RenderScene (renderTarget g) (overrideMaterial g) (cameraLayers g)) g.

  (** [fsQuad.render(renderer)] with the quad's current material. *)
Definition renderQuad (m : option Material) (g : Gfx) : Gfx :=
    emit (RenderQuad (renderTarget g) m) g.

End Renderer.

(* ===================================================================== *)
(** ** The outline pass ([AnimatedTextureBlurOutlinePass]) *)
(* ===================================================================== *)

(** [AnimatedTextureBlurOutlineOptions]: every field may be left out. *)
Record Options := mkOptions {
  opt_edgeThickness : option Q;
  opt_edgeGlow : option Q;
  opt_startU : option Q;
  opt_tileCount : option Q;
  opt_animateOutline : option bool;
  opt_animationInterval : option Q
}.

Definition noOptions : Options := mkOptions None None None None None None.

(** The number and boolean fields of the class. *)
Record Settings := mkSettings {
  edgeThickness : Q;
  edgeGlow : Q;
  startU : Q;
  tileCount : Q;
  animateOutline : bool;
  interval : Q;
  elapsed : Q
}.

(** The five render targets the pass owns. *)
Record Targets := mkTargets {
  maskRenderTarget : RenderTarget;
  blurHorizontalRenderTarget : RenderTarget;
  blurVerticalRenderTarget : RenderTarget;
  blurHorizontalHalfRenderTarget : RenderTarget;
  blurVerticalHalfRenderTarget2 : RenderTarget
}.

(** Uniforms of a separable blur material. *)
Record BlurUniforms := mkBlurUniforms {
  maxRadius : Q;
  texSize : Vector2;
  kernelRadius : Q;
  colorTexture : option TexRef;
  direction : Vector2
}.

(** Uniforms of the composite material. *)
Record OutlineUniforms := mkOutlineUniforms {
  outputMode : OutputMode;
  u_maskTexture : option TexRef;
  u_blurTexture : option TexRef;
  u_blurHalfTexture : option TexRef;
  u_hoverTexture : TexRef;
  u_selectedTexture : TexRef;
  u_startU : Q;
  u_tileCount : Q
}.

Inductive TexturePropertyKey := hoverTextureKey | selectedTextureKey.

Record Pass := mkPass {
  settings : Settings;
  targets : Targets;
  blurMaterial : BlurUniforms;
  blurHalfMaterial : BlurUniforms;
  outlineMaterial : OutlineUniforms;
  hoverTexture : TextureOrTarget;
  selectedTexture : TextureOrTarget;
  textures : list Texture;          (* the [Texture] objects, by identity *)
  fsQuadMaterial : option Material;
  tDiffuse : option TexRef;          (* copyUniforms.tDiffuse.value *)
  renderToScreen : bool
}.

Module OutlinePass.

Definition downsampleResolution : Q := 2.
Definition maskClearColor : Color := mkColor 0 0 0.
Definition blurHorizontalDirection : Vector2 := mkVector2 1 0.
Definition blurVerticalDirection : Vector2 := mkVector2 0 1.

  (** *** Field updates *)

Definition with_settings (p : Pass) (x : Settings) : Pass :=
    mkPass x (targets p) (blurMaterial p) (blurHalfMaterial p) (outlineMaterial p)
           (hoverTexture p) (selectedTexture p) (textures p) (fsQuadMaterial p)
           (tDiffuse p) (renderToScreen p).
Definition with_targets (p : Pass) (x : Targets) : Pass :=
    mkPass (settings p) x (blurMaterial p) (blurHalfMaterial p) (outlineMaterial p)
           (hoverTexture p) (selectedTexture p) (textures p) (fsQuadMaterial p)
           (tDiffuse p) (renderToScreen p).
Definition with_blurMaterial (p : Pass) (x : BlurUniforms) : Pass :=
    mkPass (settings p) (targets p) x (blurHalfMaterial p) (outlineMaterial p)
           (hoverTexture p) (selectedTexture p) (textures p) (fsQuadMaterial p)
           (tDiffuse p) (renderToScreen p).
Definition with_blurHalfMaterial (p : Pass) (x : BlurUniforms) : Pass :=
    mkPass (settings p) (targets p) (blurMaterial p) x (outlineMaterial p)
           (hoverTexture p) (selectedTexture p) (textures p) (fsQuadMaterial p)
           (tDiffuse p) (renderToScreen p).
Definition with_outlineMaterial (p : Pass) (x : OutlineUniforms) : Pass :=
    mkPass (settings p) (targets p) (blurMaterial p) (blurHalfMaterial p) x
           (hoverTexture p) (selectedTexture p) (textures p) (fsQuadMaterial p)
           (tDiffuse p) (renderToScreen p).
Definition with_textures (p : Pass) (x : list Texture) : Pass :=
    mkPass (settings p) (targets p) (blurMaterial p) (blurHalfMaterial p)
           (outlineMaterial p) (hoverTexture p) (selectedTexture p) x
           (fsQuadMaterial p) (tDiffuse p) (renderToScreen p).
Definition with_fsQuadMaterial (p : Pass) (x : option Material) : Pass :=
    mkPass (settings p) (targets p) (blurMaterial p) (blurHalfMaterial p)
           (outlineMaterial p) (hoverTexture p) (selectedTexture p) (textures p)
           x (tDiffuse p) (renderToScreen p).
Definition with_tDiffuse (p : Pass) (x : option TexRef) : Pass :=
    mkPass (settings p) (targets p) (blurMaterial p) (blurHalfMaterial p)
           (outlineMaterial p) (hoverTexture p) (selectedTexture p) (textures p)
           (fsQuadMaterial p) x (renderToScreen p).
Definition with_renderToScreen (p : Pass) (x : bool) : Pass :=
    mkPass (settings p) (targets p) (blurMaterial p) (blurHalfMaterial p)
           (outlineMaterial p) (hoverTexture p) (selectedTexture p) (textures p)
           (fsQuadMaterial p) (tDiffuse p) x.

  (** [this[key]] and [this[key] = v]. *)
Definition getKey (key : TexturePropertyKey) (p : Pass) : TextureOrTarget :=
    match key with
    | hoverTextureKey => hoverTexture p
    | selectedTextureKey => selectedTexture p
    end.

Definition setKey (key : TexturePropertyKey) (v : TextureOrTarget) (p : Pass) : Pass :=
    match key with
    | hoverTextureKey =>
        mkPass (settings p) (targets p) (blurMaterial p) (blurHalfMaterial p)
               (outlineMaterial p) v (selectedTexture p) (textures p)
               (fsQuadMaterial p) (tDiffuse p) (renderToScreen p)
    | selectedTextureKey =>
        mkPass (settings p) (targets p) (blurMaterial p) (blurHalfMaterial p)
               (outlineMaterial p) (hoverTexture p) v (textures p)
               (fsQuadMaterial p) (tDiffuse p) (renderToScreen p)
    end.

  (** [outlineMaterial.uniforms[key].value] and its assignment. *)
Definition getUniform (key : TexturePropertyKey) (u : OutlineUniforms) : TexRef :=
    match key with
    | hoverTextureKey => u_hoverTexture u
    | selectedTextureKey => u_selectedTexture u
    end.

Definition setUniform (key : TexturePropertyKey) (v : TexRef) (u : OutlineUniforms)
    : OutlineUniforms :=
    match key with
    | hoverTextureKey =>
        mkOutlineUniforms (outputMode u) (u_maskTexture u) (u_blurTexture u)
          (u_blurHalfTexture u) v (u_selectedTexture u) (u_startU u) (u_tileCount u)
    | selectedTextureKey =>
        mkOutlineUniforms (outputMode u) (u_maskTexture u) (u_blurTexture u)
          (u_blurHalfTexture u) (u_hoverTexture u) v (u_startU u) (u_tileCount u)
    end.

Definition setStartU (v : Q) (u : OutlineUniforms) : OutlineUniforms :=
    mkOutlineUniforms (outputMode u) (u_maskTexture u) (u_blurTexture u)
      (u_blurHalfTexture u) (u_hoverTexture u) (u_selectedTexture u) v (u_tileCount u).

Definition setTileCount (v : Q) (u : OutlineUniforms) : OutlineUniforms :=
    mkOutlineUniforms (outputMode u) (u_maskTexture u) (u_blurTexture u)
      (u_blurHalfTexture u) (u_hoverTexture u) (u_selectedTexture u) (u_startU u) v.

Definition bindInputs (m b h : TexRef) (u : OutlineUniforms) : OutlineUniforms :=
    mkOutlineUniforms (outputMode u) (Some m) (Some b) (Some h)
      (u_hoverTexture u) (u_selectedTexture u) (u_startU u) (u_tileCount u).

Definition setTexSize (x y : Q) (b : BlurUniforms) : BlurUniforms :=
    mkBlurUniforms (maxRadius b) (mkVector2 x y) (kernelRadius b)
                   (colorTexture b) (direction b).

Definition setKernelRadius (r : Q) (b : BlurUniforms) : BlurUniforms :=
    mkBlurUniforms (maxRadius b) (texSize b) r (colorTexture b) (direction b).

Definition setBlurInput (t : TexRef) (d : Vector2) (b : BlurUniforms) : BlurUniforms :=
    mkBlurUniforms (maxRadius b) (texSize b) (kernelRadius b) (Some t) d.

Definition setElapsed (e : Q) (s : Settings) : Settings :=
    mkSettings (edgeThickness s) (edgeGlow s) (startU s) (tileCount s)
               (animateOutline s) (interval s) e.

  (** *** Options *)

  (** The assignments of [setOptions] up to the test for the composite
      material. *)
Definition applyOptions (o : Options) (s : Settings) : Settings :=
    let edgeThickness' := Js.nullish (opt_edgeThickness o) (edgeThickness s) in
    let edgeGlow' := Js.nullish (opt_edgeGlow o) edgeThickness' in
    let startU' := Js.nullish (opt_startU o) (startU s) in
    let tileCount' := Js.nullish (opt_tileCount o) (tileCount s) in
    let animateOutline' := Js.nullish (opt_animateOutline o) (animateOutline s) in
    let interval' :=
      match opt_animationInterval o with
      | Some ms => (ms / 1000)%Q        (* milliseconds to seconds *)
      | None => interval s
      end in
    mkSettings edgeThickness' edgeGlow' startU' tileCount' animateOutline'
               interval' (elapsed s).

  (** [setOptions] on a constructed pass (the composite material exists). *)
Definition setOptions (o : Options) (p : Pass) : Pass :=
    let s := applyOptions o (settings p) in
    let u := setTileCount (tileCount s) (outlineMaterial p) in
    if negb (animateOutline s)
    then with_outlineMaterial (with_settings p (setElapsed 0 s))
                              (setStartU (startU s) u)
    else with_outlineMaterial (with_settings p s) u.

  (** *** Sizes *)

Definition setSize (w h : Q) (p : Pass) : Pass :=
    let t := targets p in
    let mask := RenderTarget_setSize w h (maskRenderTarget t) in
    let resX := Js.Math_round (w / downsampleResolution) in
    let resY := Js.Math_round (h / downsampleResolution) in
    let blurH := RenderTarget_setSize resX resY (blurHorizontalRenderTarget t) in
    let bm := setTexSize resX resY (blurMaterial p) in
    let resX2 := Js.Math_round (resX / 2) in
    let resY2 := Js.Math_round (resY / 2) in
    let blurHalfH := RenderTarget_setSize resX2 resY2 (blurHorizontalHalfRenderTarget t) in
    let bhm := setTexSize resX2 resY2 (blurHalfMaterial p) in
    with_blurHalfMaterial
      (with_blurMaterial
         (with_targets p
            (mkTargets mask blurH (blurVerticalRenderTarget t) blurHalfH
                       (blurVerticalHalfRenderTarget2 t)))
         bm)
      bhm.

  (** *** Channel textures *)

  (** [createNewTexture]: a new [Texture] whose [wrapS] repeats; a new
      [Texture] has no image. *)
Definition createNewTexture : Texture := mkTexture RepeatWrapping None false.

  (** The texture a channel field stands for in the shader:
      [(x as WebGLRenderTarget)?.texture || x]. *)
Definition textureOf (x : TextureOrTarget) : TexRef :=
    match x with
    | IsTexture t => TextureObj t
    | IsRenderTarget r => TargetTexture r
    end.

Definition RtRef_eqb (a b : RtRef) : bool :=
    match a, b with
    | MaskTarget, MaskTarget
    | BlurHorizontalTarget, BlurHorizontalTarget
    | BlurVerticalTarget, BlurVerticalTarget
    | BlurHorizontalHalfTarget, BlurHorizontalHalfTarget
    | BlurVerticalHalfTarget2, BlurVerticalHalfTarget2 => true
    | OtherTarget n, OtherTarget m => Nat.eqb n m
    | _, _ => false
    end.

  (** [this[key] === renderTarget]. *)
Definition sameTarget (x : TextureOrTarget) (r : RtRef) : bool :=
    match x with
    | IsRenderTarget r' => RtRef_eqb r' r
    | IsTexture _ => false
    end.

Definition setTextureRenderTarget (key : TexturePropertyKey) (r : RtRef) (p : Pass)
    : Pass :=
    if sameTarget (getKey key p) r then p
    else
      let p1 := setKey key (IsRenderTarget r) p in
      with_outlineMaterial p1 (setUniform key (TargetTexture r) (outlineMaterial p1)).

  (** [createAndSetTexture]: returns the new texture's reference too. *)
Definition createAndSetTexture (key : TexturePropertyKey) (p : Pass) : nat * Pass :=
    let t := length (textures p) in
    let p1 := with_textures p (textures p ++ [createNewTexture]) in
    let p2 := with_outlineMaterial p1 (setUniform key (TextureObj t) (outlineMaterial p1)) in
    (t, setKey key (IsTexture t) p2).

Definition getTextureDimensions (i : option Image) : Q * Q :=
    match i with
    | None => (0%Q, 0%Q)
    | Some im =>
        match nodeName im with
        | CanvasElement => (imgWidth im, imgHeight im)
        | ImageElement => (naturalWidth im, naturalHeight im)
        end
    end.

  (** [texture.image = image; texture.needsUpdate = true] on the stored
      object. *)
Definition assignImage (t : nat) (im : Image) (p : Pass) : Pass :=
    with_textures p
      (alter (fun tx => mkTexture (wrapS tx) (Some im) true) t (textures p)).

Definition setTextureTexture (key : TexturePropertyKey) (im : Image) (p : Pass) : Pass :=
    match getKey key p with
    | IsRenderTarget _ =>
        snd (createAndSetTexture key p)
    | IsTexture t =>
        let '(t', p') :=
          match textures p !! t with
          | Some (mkTexture _ (Some old) _) =>
              let '(oldWidth, oldHeight) := getTextureDimensions (Some old) in
              let '(newWidth, newHeight) := getTextureDimensions (Some im) in
              if negb (Qeq_bool oldWidth newWidth) || negb (Qeq_bool oldHeight newHeight)
              then createAndSetTexture key p
              else (t, p)
          | _ => (t, p)
          end in
        assignImage t' im p'
    end.

Definition setTexture (key : TexturePropertyKey) (src : ColorSource) (p : Pass) : Pass :=
    match src with
    | FromRenderTarget r => setTextureRenderTarget key r p
    | FromImage im => setTextureTexture key im p
    end.

Definition setColors (c : ColorBlurOutlineTextures) (p : Pass) : Pass :=
    let p1 := match hover c with
              | Some src => setTexture hoverTextureKey src p
              | None => p
              end in
    match selected c with
    | Some src => setTexture selectedTextureKey src p1
    | None => p1
    end.

  (** [updateTexture]: [needsUpdate = true] on an image-backed channel. *)
Definition updateTexture (key : TexturePropertyKey) (p : Pass) : Pass :=
    match getKey key p with
    | IsTexture t =>
        with_textures p
          (alter (fun tx => mkTexture (wrapS tx) (image tx) true) t (textures p))
    | IsRenderTarget _ => p
    end.

  (** Modelled from the spec: create-outline-material.ts is not among the
      sources.  The composite material starts with the three input textures
      unbound and with the channel textures, [startU] and [tileCount] it is
      handed. *)
Definition newOutlineMaterial (mode : OutputMode) (hoverTex selectedTex : TexRef)
             (startU0 tileCount0 : Q) : OutlineUniforms :=
    mkOutlineUniforms mode None None None hoverTex selectedTex startU0 tileCount0.

  (** The private [createOutlineMaterial(outputMode)]. *)
Definition createOutlineMaterial (mode : OutputMode)
             (hoverT selectedT : TextureOrTarget) (s : Settings) : OutlineUniforms :=
    newOutlineMaterial mode (textureOf hoverT) (textureOf selectedT)
                       (startU s) (tileCount s).

Definition setOutputMode (mode : OutputMode) (p : Pass) : Pass :=
    with_outlineMaterial p
      (createOutlineMaterial mode (hoverTexture p) (selectedTexture p) (settings p)).

  (** *** Construction *)

  (** Modelled from the spec: create-blur-material.ts is not among the
      sources.  A separable blur material is parameterised by its largest
      radius and starts with no source texture. *)
Definition createSeperableBlurMaterial (maxRadius0 : Q) : BlurUniforms :=
    mkBlurUniforms maxRadius0 (mkVector2 (1 # 2) (1 # 2)) 1 None
                   (mkVector2 (1 # 2) (1 # 2)).

Definition initBlurRenderTargetsAndMaterials (resolution : Vector2) (s : Settings)
    : RenderTarget * RenderTarget * RenderTarget * RenderTarget
      * BlurUniforms * BlurUniforms :=
    let resX := Js.Math_round (vx resolution / downsampleResolution) in
    let resY := Js.Math_round (vy resolution / downsampleResolution) in
    let blurH := mkRenderTarget resX resY in
    let blurV := mkRenderTarget resX resY in
    let bm := setKernelRadius 1
                (setTexSize resX resY (createSeperableBlurMaterial (edgeThickness s))) in
    let resX2 := Js.Math_round (resX / 2) in
    let resY2 := Js.Math_round (resY / 2) in
    let blurHalfH := mkRenderTarget resX2 resY2 in
    let blurHalfV := mkRenderTarget resX2 resY2 in
    let bhm := setKernelRadius (edgeGlow s)
                 (setTexSize resX2 resY2 (createSeperableBlurMaterial (edgeGlow s))) in
    (blurH, blurV, blurHalfH, blurHalfV, bm, bhm).

  (** The field initialisers of the class. *)
Definition defaultSettings : Settings := mkSettings 1 2 0 1 true 60 0.

  (** The constructor.  Its call of [setOptions] finds no composite material
      yet and stops after the assignments of [applyOptions]. *)
Definition constructor (resolution : Vector2) (options : Options) : Pass :=
    let s := applyOptions options defaultSettings in
    let mask := mkRenderTarget (vx resolution) (vy resolution) in
    let txs := [createNewTexture; createNewTexture] in
    let hoverT := IsTexture 0 in
    let selectedT := IsTexture 1 in
    let om := createOutlineMaterial Normal hoverT selectedT s in
    let '(blurH, blurV, blurHalfH, blurHalfV, bm, bhm) :=
      initBlurRenderTargetsAndMaterials resolution s in
    mkPass s (mkTargets mask blurH blurV blurHalfH blurHalfV) bm bhm om
           hoverT selectedT txs None None false.

  (** *** Rendering *)

Definition shouldRenderOutline (hl : Highlighter.State) : bool :=
    Highlighter.isAnyProductHighlighted hl.

Definition renderMaskTexture (g : Gfx) : Gfx :=
    let g := Renderer.setRenderTarget (Some MaskTarget) g in
    let g := Renderer.clear g in
    let g := Renderer.setOverrideMaterial (Some HoverMaskMaterial) g in
    let g := Renderer.setCameraLayers (Layers.set 1) g in
    let g := Renderer.render g in
    let g := Renderer.setOverrideMaterial (Some SelectedMaskMaterial) g in
    let g := Renderer.setCameraLayers (Layers.set 2) g in
    let g := Renderer.render g in
    let g := Renderer.setCameraLayers (Layers.set 0) g in
    Renderer.setOverrideMaterial None g.

Definition renderBlurTexture (p : Pass) (g : Gfx) : Pass * Gfx :=
    let g := Renderer.setRenderTarget (Some BlurHorizontalTarget) g in
    let g := Renderer.clear g in
    let p := with_fsQuadMaterial p (Some BlurMaterial) in
    let p := with_blurMaterial p
               (setBlurInput (TargetTexture MaskTarget) blurHorizontalDirection
                             (blurMaterial p)) in
    let g := Renderer.renderQuad (fsQuadMaterial p) g in
    let g := Renderer.setRenderTarget (Some BlurVerticalTarget) g in
    let g := Renderer.clear g in
    let p := with_blurMaterial p
               (setBlurInput (TargetTexture BlurHorizontalTarget) blurVerticalDirection
                             (blurMaterial p)) in
    let g := Renderer.renderQuad (fsQuadMaterial p) g in
    (p, g).

Definition renderBlurHalfTexture (p : Pass) (g : Gfx) : Pass * Gfx :=
    let g := Renderer.setRenderTarget (Some BlurHorizontalHalfTarget) g in
    let g := Renderer.clear g in
    let p := with_fsQuadMaterial p (Some BlurHalfMaterial) in
    let p := with_blurHalfMaterial p
               (setBlurInput (TargetTexture MaskTarget) blurHorizontalDirection
                             (blurHalfMaterial p)) in
    let g := Renderer.renderQuad (fsQuadMaterial p) g in
    let g := Renderer.setRenderTarget (Some BlurVerticalHalfTarget2) g in
    let g := Renderer.clear g in
    let p := with_blurHalfMaterial p
               (setBlurInput (TargetTexture BlurHorizontalHalfTarget)
                             blurVerticalDirection (blurHalfMaterial p)) in
    let g := Renderer.renderQuad (fsQuadMaterial p) g in
    (p, g).

  (** [renderOutline].  The scroll offset is computed in exact arithmetic
      here; [OutlinePass64.renderOutline] has it rounded as the source. *)
Definition renderOutline (hl : Highlighter.State) (readBuffer : RtRef)
             (p : Pass) (g : Gfx) : Pass * Gfx :=
    if negb (shouldRenderOutline hl) then (p, g)
    else
      let oldAutoClear := autoClear g in
      let oldClearAlpha := clearAlpha g in
      let oldClearColor := clearColor g in     (* copied into tempOldClearColor *)
      let g := Renderer.setClearColor maskClearColor 0 g in
      let g := Renderer.setAutoClear false g in
      let g := renderMaskTexture g in
      let '(p, g) := renderBlurTexture p g in
      let '(p, g) := renderBlurHalfTexture p g in
      let p := with_fsQuadMaterial p (Some OutlineMaterial) in
      let p := with_outlineMaterial p
                 (bindInputs (TargetTexture MaskTarget)
                             (TargetTexture BlurVerticalTarget)
                             (TargetTexture BlurVerticalHalfTarget2)
                             (outlineMaterial p)) in
      let p :=
        if animateOutline (settings p)
        then
          let progress := (elapsed (settings p) / interval (settings p))%Q in
          with_outlineMaterial p
            (setStartU (startU (settings p) + tileCount (settings p) * progress)%Q
                       (outlineMaterial p))
        else p in
      let g := Renderer.setRenderTarget (Some readBuffer) g in
      let g := Renderer.renderQuad (fsQuadMaterial p) g in
      let g := Renderer.setAutoClear oldAutoClear g in
      let g := Renderer.setClearColor oldClearColor oldClearAlpha g in
      (p, g).

  (** [render].  [elapsed + deltaTime] and [%] are exact here, and a zero
      interval leaves the sum as it is where the source gets NaN;
      [OutlinePass64.render] has the clock in binary64. *)
Definition render (hl : Highlighter.State) (readBuffer : RtRef) (deltaTime : Q)
             (maskActive : bool) (p : Pass) (g : Gfx) : Pass * Gfx :=
    let p := with_settings p
               (setElapsed (Js.rem (elapsed (settings p) + deltaTime)
                                   (interval (settings p)))
                           (settings p)) in
    let '(p, g) := renderOutline hl readBuffer p g in
    let g := if maskActive then Renderer.setStencilTest true g else g in
    if renderToScreen p
    then
      let p := with_fsQuadMaterial p (Some MaterialCopy) in
      let p := with_tDiffuse p (Some (TargetTexture readBuffer)) in
      let g := Renderer.setRenderTarget None g in
      let g := Renderer.renderQuad (fsQuadMaterial p) g in
      (p, g)
    else (p, g).

  (** One frame per element: the tracker's state at that frame and the
      frame's [deltaTime]. *)
Definition renderFrames (readBuffer : RtRef) (maskActive : bool)
             (frames : list (Highlighter.State * Q)) (p : Pass) (g : Gfx) : Pass * Gfx :=
    fold_left (fun pg fr => render (fst fr) readBuffer (snd fr) maskActive
                                   (fst pg) (snd pg))
              frames (p, g).

End OutlinePass.

(* ===================================================================== *)
(** ** The animation clock of the pass in binary64

    The number fields [render] and [renderOutline] read and write, and what
    these two methods do to them, with the rounding of the source. *)
(* ===================================================================== *)

Module OutlinePass64.
  Import Binary64.

Record Clock := mkClock {
  startU : double;
  tileCount : double;
  interval : double;          (* seconds *)
  animateOutline : bool;
  elapsed : double;
  u_startU : double           (* outlineMaterial.uniforms.startU.value *)
}.

  (** [renderOutline]: nothing when no product is highlighted; otherwise,
      when the animation is on,
      [progress = elapsed / interval; startU.value = startU + tileCount * progress]. *)
Definition renderOutline (highlighted : bool) (c : Clock) : Clock :=
    if negb highlighted then c
    else if animateOutline c
    then
      let progress := div (elapsed c) (interval c) in
      mkClock (startU c) (tileCount c) (interval c) (animateOutline c) (elapsed c)
              (add (startU c) (mul (tileCount c) progress))
    else c.

  (** [render]: [this.elapsed = (this.elapsed + deltaTime) % this.interval],
      then [renderOutline]. *)
Definition render (highlighted : bool) (deltaTime : double) (c : Clock) : Clock :=
    renderOutline highlighted
      (mkClock (startU c) (tileCount c) (interval c) (animateOutline c)
               (rem (add (elapsed c) deltaTime) (interval c))
               (u_startU c)).

  (** One frame per element: whether a product is highlighted at that frame
      and the frame's [deltaTime]. *)
Definition renderFrames (frames : list (bool * double)) (c : Clock) : Clock :=
    fold_left (fun c fr => render (fst fr) (snd fr) c) frames c.

End OutlinePass64.

(* ===================================================================== *)
(** ** The composite fragment shader of [ColorBlurOutlinePass] *)
(* ===================================================================== *)

Record Vec3 := mkVec3 { x3 : Q; y3 : Q; z3 : Q }.
Record Vec4 := mkVec4 { x4 : Q; y4 : Q; z4 : Q; w4 : Q }.

Module CompositeShader.

  (** GLSL [clamp(x, minVal, maxVal)] is [min(max(x, minVal), maxVal)]. *)
Definition clamp (x lo hi : Q) : Q := Qmin (Qmax x lo) hi.

  (** [vec4 getOutlineColor(float mask, float blur, vec3 outlineColor)]. *)
Definition getOutlineColor (mask blur : Q) (outlineColor : Vec3) : Vec4 :=
    let blurOutline := clamp ((blur - mask) * (5 # 2)) 0 1 in
    mkVec4 (x3 outlineColor * blurOutline) (y3 outlineColor * blurOutline)
           (z3 outlineColor * blurOutline) blurOutline.

  (** [void main()]: the three texels sampled at [vUv] and the two colour
      uniforms give [gl_FragColor]. *)
Definition main (maskColor blurColor blurHalfColor : Vec4)
             (hoverOutlineColor selectedOutlineColor : Vec3) : Vec4 :=
    let combinedBlur :=
      mkVec3 (Qmin (x4 blurColor + x4 blurHalfColor) 1)
             (Qmin (y4 blurColor + y4 blurHalfColor) 1)
             (Qmin (z4 blurColor + z4 blurHalfColor) 1) in
    let hover := getOutlineColor (x4 maskColor) (x3 combinedBlur) hoverOutlineColor in
    let selected := getOutlineColor (y4 maskColor) (y3 combinedBlur) selectedOutlineColor in
    mkVec4 (x4 hover + x4 selected) (y4 hover + y4 selected) (z4 hover + z4 selected)
           (Qmax (w4 hover) (w4 selected)).

  (** The formula as the specification words it: the edge of a channel from
      its mask value and the sum of its two blur values clamped to [0, 1]. *)
Definition spec_edge (mask blurFull blurHalf : Q) : Q :=
    clamp ((clamp (blurFull + blurHalf) 0 1 - mask) * (5 # 2)) 0 1.

  (** A texel of a normalised RGBA target: every component in [0, 1]. *)
Definition texel (v : Vec4) : Prop :=
    (0 <= x4 v <= 1 /\ 0 <= y4 v <= 1 /\ 0 <= z4 v <= 1 /\ 0 <= w4 v <= 1)%Q.

End CompositeShader.

(* ===================================================================== *)
(** ** Concrete scenes, passes and frames used by the examples below *)
(* ===================================================================== *)

Module Scenario.

  (** Two unrelated objects, nothing highlighted. *)
Definition twoObjects : Highlighter.State :=
    Highlighter.fresh [(0%nat, None); (1%nat, None)].

  (** Object 0 is hovered and then selected. *)
Definition hoveredAndSelected : Highlighter.State :=
    Highlighter.run
      [Highlighter.object3DPointerEnter 0; Highlighter.object3DSelected 0]
      twoObjects.

  (** Object 0 is hovered only. *)
Definition hoveredOnly : Highlighter.State :=
    Highlighter.handle (Highlighter.object3DPointerEnter 0) twoObjects.

  (** The renderer as the application leaves it: white clear colour, auto
      clear on, camera on layer 0, no override material. *)
Definition gfx0 : Gfx :=
    mkGfx true (mkColor 1 1 1) 1 None false None Layers.initial [].

  (** The same with the camera also seeing layer 3 and an override material
      of the application's in place. *)
Definition gfxCustom : Gfx :=
    mkGfx true (mkColor 1 1 1) 1 None false (Some (OtherMaterial 0)) 9 [].

  (** A pass built for an 800 x 600 canvas with default options. *)
Definition pass800 : Pass :=
    OutlinePass.constructor (mkVector2 800 600) noOptions.

  (** A pass with the animation switched off. *)
Definition passStill : Pass :=
    OutlinePass.constructor (mkVector2 800 600)
      (mkOptions None None None None (Some false) None).

  (** A pass animated over 60 s with two tiles, starting at U = 0. *)
Definition passAnimated : Pass :=
    OutlinePass.constructor (mkVector2 800 600)
      (mkOptions None None (Some 0%Q) (Some 2%Q) (Some true) (Some 60000%Q)).

Definition canvasA : Image := mkImage 1 CanvasElement 256 1 0 0.
Definition canvasB : Image := mkImage 2 CanvasElement 256 1 0 0.

  (** A canvas twice as wide as [canvasA]. *)
Definition canvasWide : Image := mkImage 3 CanvasElement 512 1 0 0.

  (** The composer's read buffer. *)
Definition readBuffer : RtRef := OtherTarget 0.

  (** Sum of the frame times of a list of frames. *)
Definition sumDeltas (frames : list (Highlighter.State * Q)) : Q :=
    fold_right Qplus 0%Q (map snd frames).





End Scenario.

(* ===================================================================== *)
(** ** Predicates the statements below are written with *)
(* ===================================================================== *)

(** A render target has the given size. *)
Definition sizeIs (t : RenderTarget) (w h : Q) : Prop :=
  (width t == w /\ height t == h)%Q.

(** While the animation is off, the [startU] uniform is the configured
    [startU]. *)
Definition stillUniform (p : Pass) : Prop :=
  animateOutline (settings p) = false ->
  u_startU (outlineMaterial p) = startU (settings p).

(** The uniform of a channel refers to what the channel field holds. *)
Definition bound (key : TexturePropertyKey) (p : Pass) : Prop :=
  OutlinePass.getUniform key (outlineMaterial p) =
  OutlinePass.textureOf (OutlinePass.getKey key p).

(** The image behind the texture a channel's uniform refers to, when that
    texture is one of the pass's own [Texture] objects. *)
Definition boundImage (key : TexturePropertyKey) (p : Pass) : option Image :=
  match OutlinePass.getUniform key (outlineMaterial p) with
  | TextureObj t => tx ← textures p !! t; image tx
  | TargetTexture _ => None
  end.

(** Two images have the same width and the same height, read as
    [getTextureDimensions] reads them: a canvas by [width] and [height], an
    image element by [naturalWidth] and [naturalHeight]. *)
Definition sameSize (a b : Image) : Prop :=
  (fst (OutlinePass.getTextureDimensions (Some a))
     == fst (OutlinePass.getTextureDimensions (Some b)) /\
   snd (OutlinePass.getTextureDimensions (Some a))
     == snd (OutlinePass.getTextureDimensions (Some b)))%Q.

(** A texture can take an image in place: it has no image yet, or an image
    of the same size. *)
Definition fits (tx : Texture) (im : Image) : Prop :=
  match image tx with
  | None => True
  | Some old => sameSize old im
  end.

(* ===================================================================== *)
(** ** Reading the tracker's and the pass's state *)
(* ===================================================================== *)

(** Whether layer [i] is enabled on object [x]; [None] when the store has no
    such object. *)
Definition layerBit (s : Highlighter.State) (x : ObjRef) (i : Z) : option bool :=
  (fun ob => Z.testbit (layers ob) i) <$> Highlighter.objects s !! x.

(** [x] is the object [o] or one of its related siblings. *)
Definition inGroup (s : Highlighter.State) (o x : ObjRef) : bool :=
  existsb (Nat.eqb x) (o :: Highlighter.relatedOf (Highlighter.objects s) o).

(** Both channel uniforms refer to what the channel fields hold, and a
    channel that holds a [Texture] holds one of the store. *)
Definition channelOk (key : TexturePropertyKey) (p : Pass) : Prop :=
  bound key p /\
  forall t, OutlinePass.getKey key p = IsTexture t -> (t < length (textures p))%nat.

Definition channelsOk (p : Pass) : Prop :=
  channelOk hoverTextureKey p /\ channelOk selectedTextureKey p.

(** The calls of the public interface of the pass. *)
Inductive Op :=
| OpSetOptions (o : Options)
| OpSetSize (w h : Q)
| OpSetColors (c : ColorBlurOutlineTextures)
| OpUpdateTexture (key : TexturePropertyKey)
| OpSetOutputMode (m : OutputMode)
| OpRender (hl : Highlighter.State) (readBuffer : RtRef) (deltaTime : Q) (maskActive : bool).

Definition runOp (op : Op) (pg : Pass * Gfx) : Pass * Gfx :=
  match op with
  | OpSetOptions o => (OutlinePass.setOptions o (fst pg), snd pg)
  | OpSetSize w h => (OutlinePass.setSize w h (fst pg), snd pg)
  | OpSetColors c => (OutlinePass.setColors c (fst pg), snd pg)
  | OpUpdateTexture key => (OutlinePass.updateTexture key (fst pg), snd pg)
  | OpSetOutputMode m => (OutlinePass.setOutputMode m (fst pg), snd pg)
  | OpRender hl rb dt ma => OutlinePass.render hl rb dt ma (fst pg) (snd pg)
  end.

Definition runOps (ops : list Op) (pg : Pass * Gfx) : Pass * Gfx :=
  fold_left (fun acc op => runOp op acc) ops pg.

(** What an active frame sends to the renderer before the copy to the
    screen. *)
Definition outlineCalls (readBuffer : RtRef) : list DrawCall :=
  [ Clear (Some MaskTarget);
    RenderScene (Some MaskTarget) (Some HoverMaskMaterial) (Layers.set 1);
    RenderScene (Some MaskTarget) (Some SelectedMaskMaterial) (Layers.set 2);
    Clear (Some BlurHorizontalTarget);
    RenderQuad (Some BlurHorizontalTarget) (Some BlurMaterial);
    Clear (Some BlurVerticalTarget);
    RenderQuad (Some BlurVerticalTarget) (Some BlurMaterial);
    Clear (Some BlurHorizontalHalfTarget);
    RenderQuad (Some BlurHorizontalHalfTarget) (Some BlurHalfMaterial);
    Clear (Some BlurVerticalHalfTarget2);
    RenderQuad (Some BlurVerticalHalfTarget2) (Some BlurHalfMaterial);
    RenderQuad (Some readBuffer) (Some OutlineMaterial) ].

(** The start of [EffectComposerHandler]'s constructor: the pass is built
    and given its hover and selected images by two calls of [setColors]. *)
Definition composerOutlinePass (size : Vector2) (hoverImage selectedImage : Image) : Pass :=
  OutlinePass.setColors (mkColors None (Some (FromImage selectedImage)))
    (OutlinePass.setColors (mkColors (Some (FromImage hoverImage)) None)
       (OutlinePass.constructor size noOptions)).

(* ===================================================================== *)
(** ** The colour outline pass ([ColorBlurOutlinePass]) *)
(* ===================================================================== *)

Module ColorBlurOutlinePass.

  (** The three targets the pass owns and the buffers of the composer. *)
Inductive Target := MaskRT | BlurRT | BlurHalfRT | Buffer (n : nat).

Inductive Call :=
| CClear (target : option Target)
| CRenderScene (target : option Target) (override : option Material) (cameraLayers : Z)
| CRenderQuad (target : option Target) (m : option Material) (source : option Target).

  (** Renderer, scene and camera state.  A quad draw is logged with the
      target whose texture the material's single input ([colorTexture],
      [tDiffuse]) refers to; the composite material has three inputs and is
      logged with [None]. *)
Record Gl := mkGl {
  autoClear : bool;
  clearColor : Color;
  clearAlpha : Q;
  renderTarget : option Target;
  overrideMaterial : option Material;
  cameraLayers : Z;
  calls : list Call
}.

Record Blur := mkBlur {
  texSize : Vector2;
  kernelRadius : Q;
  colorTexture : option Target;
  direction : Vector2
}.

Record Outline := mkOutline {
  maskTexture : option Target;
  blurTexture : option Target;
  blurHalfTexture : option Target;
  hoverOutlineColor : Color;
  selectedOutlineColor : Color
}.

Record Pass := mkPass {
  maskRenderTarget : RenderTarget;
  blurRenderTarget : RenderTarget;
  blurHalfRenderTarget : RenderTarget;
  blurMaterial : Blur;
  blurHalfMaterial : Blur;
  outlineMaterial : Outline;
  fsQuadMaterial : option Material;
  tDiffuse : option Target;
  renderToScreen : bool
}.

Definition downsampleResolution : Q := 2.

Definition setSize (w h : Q) (p : Pass) : Pass :=
    let mask := RenderTarget_setSize w h (maskRenderTarget p) in
    let resX := Js.Math_round (w / downsampleResolution) in
    let resY := Js.Math_round (h / downsampleResolution) in
    let blur := RenderTarget_setSize resX resY (blurRenderTarget p) in
    let bm := mkBlur (mkVector2 resX resY) (kernelRadius (blurMaterial p))
                     (colorTexture (blurMaterial p)) (direction (blurMaterial p)) in
    let resX2 := Js.Math_round (resX / 2) in
    let resY2 := Js.Math_round (resY / 2) in
    let blurHalf := RenderTarget_setSize resX2 resY2 (blurHalfRenderTarget p) in
    let bhm := mkBlur (mkVector2 resX2 resY2) (kernelRadius (blurHalfMaterial p))
                      (colorTexture (blurHalfMaterial p)) (direction (blurHalfMaterial p)) in
    mkPass mask blur blurHalf bm bhm (outlineMaterial p) (fsQuadMaterial p)
           (tDiffuse p) (renderToScreen p).

Definition emit (c : Call) (g : Gl) : Gl :=
    mkGl (autoClear g) (clearColor g) (clearAlpha g) (renderTarget g)
         (overrideMaterial g) (cameraLayers g) (calls g ++ [c]).

Definition setRenderTarget (t : option Target) (g : Gl) : Gl :=
    mkGl (autoClear g) (clearColor g) (clearAlpha g) t
         (overrideMaterial g) (cameraLayers g) (calls g).

Definition setClearState (ac : bool) (c : Color) (a : Q) (g : Gl) : Gl :=
    mkGl ac c a (renderTarget g) (overrideMaterial g) (cameraLayers g) (calls g).

Definition setView (m : option Material) (mask : Z) (g : Gl) : Gl :=
    mkGl (autoClear g) (clearColor g) (clearAlpha g) (renderTarget g) m mask (calls g).

Definition renderMaskTexture (g : Gl) : Gl :=
    let g := setRenderTarget (Some MaskRT) g in
    let g := emit (CClear (renderTarget g)) g in
    let g := setView (Some HoverMaskMaterial) (Layers.set 1) g in
    let g := emit (CRenderScene (renderTarget g) (overrideMaterial g) (cameraLayers g)) g in
    let g := setView (Some SelectedMaskMaterial) (Layers.set 2) g in
    let g := emit (CRenderScene (renderTarget g) (overrideMaterial g) (cameraLayers g)) g in
    let g := setView (overrideMaterial g) (Layers.set 0) g in
    setView None (cameraLayers g) g.

  (** One target serves both directions: it is cleared once, and the
      vertical draw samples the texture of the target it draws into. *)
Definition blurInto (t : Target) (m : Material) (b : Blur) (g : Gl) : Blur * Gl :=
    let g := setRenderTarget (Some t) g in
    let g := emit (CClear (renderTarget g)) g in
    let b := mkBlur (texSize b) (kernelRadius b) (Some MaskRT) (mkVector2 1 0) in
    let g := emit (CRenderQuad (renderTarget g) (Some m) (colorTexture b)) g in
    let b := mkBlur (texSize b) (kernelRadius b) (Some t) (mkVector2 0 1) in
    let g := emit (CRenderQuad (renderTarget g) (Some m) (colorTexture b)) g in
    (b, g).

Definition renderBlurTexture (p : Pass) (g : Gl) : Pass * Gl :=
    let '(b, g) := blurInto BlurRT BlurMaterial (blurMaterial p) g in
    (mkPass (maskRenderTarget p) (blurRenderTarget p) (blurHalfRenderTarget p)
            b (blurHalfMaterial p) (outlineMaterial p) (Some BlurMaterial)
            (tDiffuse p) (renderToScreen p), g).

Definition renderBlurHalfTexture (p : Pass) (g : Gl) : Pass * Gl :=
    let '(b, g) := blurInto BlurHalfRT BlurHalfMaterial (blurHalfMaterial p) g in
    (mkPass (maskRenderTarget p) (blurRenderTarget p) (blurHalfRenderTarget p)
            (blurMaterial p) b (outlineMaterial p) (Some BlurHalfMaterial)
            (tDiffuse p) (renderToScreen p), g).

Definition render (readBuffer : Target) (p : Pass) (g : Gl) : Pass * Gl :=
    let oldAutoClear := autoClear g in
    let oldClearAlpha := clearAlpha g in
    let oldClearColor := clearColor g in
    let g := setClearState (autoClear g) (mkColor 0 0 0) 0 g in
    let g := setClearState false (clearColor g) (clearAlpha g) g in
    let g := renderMaskTexture g in
    let '(p, g) := renderBlurTexture p g in
    let '(p, g) := renderBlurHalfTexture p g in
    let om := outlineMaterial p in
    let p := mkPass (maskRenderTarget p) (blurRenderTarget p) (blurHalfRenderTarget p)
                    (blurMaterial p) (blurHalfMaterial p)
                    (mkOutline (Some MaskRT) (Some BlurRT) (Some BlurHalfRT)
                               (hoverOutlineColor om) (selectedOutlineColor om))
                    (Some OutlineMaterial) (tDiffuse p) (renderToScreen p) in
    let g := setRenderTarget (Some readBuffer) g in
    let g := emit (CRenderQuad (renderTarget g) (fsQuadMaterial p) None) g in
    let g := setClearState oldAutoClear (clearColor g) (clearAlpha g) g in
    let g := setClearState (autoClear g) oldClearColor oldClearAlpha g in
    if renderToScreen p
    then
      let p := mkPass (maskRenderTarget p) (blurRenderTarget p) (blurHalfRenderTarget p)
                      (blurMaterial p) (blurHalfMaterial p) (outlineMaterial p)
                      (Some MaterialCopy) (Some readBuffer) (renderToScreen p) in
      let g := setRenderTarget None g in
      let g := emit (CRenderQuad (renderTarget g) (fsQuadMaterial p) (Some readBuffer)) g in
      (p, g)
    else (p, g).

End ColorBlurOutlinePass.

(* ===================================================================== *)
(** ** The environment map cache ([EnvironmentMapLoader]) *)
(* ===================================================================== *)

Module EnvironmentMapLoader.

  (** [environments] is a plain object: reading [environments[file]] finds
      the own property, and otherwise what [Object.prototype] has under that
      name. *)
Definition objectPrototypeKeys : list string :=
    [ "constructor"; "__defineGetter__"; "__defineSetter__"; "hasOwnProperty";
      "__lookupGetter__"; "__lookupSetter__"; "isPrototypeOf";
      "propertyIsEnumerable"; "toString"; "valueOf"; "__proto__";
      "toLocaleString" ]%string.

Definition inherited (file : string) : bool :=
    existsb (String.eqb file) objectPrototypeKeys.

  (** The cache, and the files whose EXR load was started, oldest first.  A
      promise is named by the number of the load it stands for. *)
Record State := mkState {
  environments : gmap string nat;
  started : list string
}.

Definition empty : State := mkState ∅ [].

  (** What [loadEnvironment] returns: a promise, or the truthy member of
      [Object.prototype] it found under the name. *)
Inductive Found :=
| PromiseOf (load : nat)
| PrototypeMember (name : string).

Definition loadEnvironment (file : string) (s : State) : Found * State :=
    match environments s !! file with
    | Some pr => (PromiseOf pr, s)
    | None =>
        if inherited file then (PrototypeMember file, s)
        else
          let pr := length (started s) in
          (PromiseOf pr, mkState (<[file := pr]> (environments s)) (started s ++ [file]))
    end.

Definition loadAll (files : list string) (s : State) : State :=
    fold_left (fun acc f => snd (loadEnvironment f acc)) files s.

  (** The cache and the loads started tell the same story. *)
Definition consistent (s : State) : Prop :=
    forall f i, environments s !! f = Some i <-> started s !! i = Some f.

End EnvironmentMapLoader.

(* ===================================================================== *)
(** ** Auxiliary notions for the layer and draw-call statements *)
(* ===================================================================== *)

(** An object whose mask went through [f] [n] times. *)
Definition relayer (f : Z -> Z) (n : nat) (ob : Object3D) : Object3D :=
  mkObject3D (Nat.iter n f (layers ob)) (related ob).

(** How often [applyLayer _ o] reaches the object [x]: once as the object
    itself, once for every occurrence among the siblings. *)
Definition touches (os : gmap ObjRef Object3D) (o x : ObjRef) : nat :=
  (if Nat.eqb o x then 1 else 0)
  + count_occ Nat.eq_dec (Highlighter.relatedOf os o) x.

(** What a step of the tracker keeps: every layer other than 1 and 2, and
    who is related to whom. *)
Definition keeps (s s' : Highlighter.State) : Prop :=
  (forall x i, i <> HOVER_LAYER -> i <> SELECTED_LAYER -> layerBit s' x i = layerBit s x i) /\
  (forall x, Highlighter.relatedOf (Highlighter.objects s') x
             = Highlighter.relatedOf (Highlighter.objects s) x).

(** Objects 0 and 1 highlight together, object 2 stands alone. *)
Definition pairedObjects : Highlighter.State :=
  Highlighter.fresh [(0%nat, Some [1%nat]); (1%nat, Some [0%nat]); (2%nat, None)].

(** What a frame of the colour outline pass sends to the renderer before the
    copy to the screen. *)
Definition colourCalls (readBuffer : ColorBlurOutlinePass.Target)
  : list ColorBlurOutlinePass.Call :=
  let m := Some ColorBlurOutlinePass.MaskRT in
  let b := Some ColorBlurOutlinePass.BlurRT in
  let h := Some ColorBlurOutlinePass.BlurHalfRT in
  [ ColorBlurOutlinePass.CClear m;
    ColorBlurOutlinePass.CRenderScene m (Some HoverMaskMaterial) (Layers.set 1);
    ColorBlurOutlinePass.CRenderScene m (Some SelectedMaskMaterial) (Layers.set 2);
    ColorBlurOutlinePass.CClear b;
    ColorBlurOutlinePass.CRenderQuad b (Some BlurMaterial) m;
    ColorBlurOutlinePass.CRenderQuad b (Some BlurMaterial) b;
    ColorBlurOutlinePass.CClear h;
    ColorBlurOutlinePass.CRenderQuad h (Some BlurHalfMaterial) m;
    ColorBlurOutlinePass.CRenderQuad h (Some BlurHalfMaterial) h;
    ColorBlurOutlinePass.CRenderQuad (Some readBuffer) (Some OutlineMaterial) None ].

(* ===================================================================== *)
(** ** Facts about [Math.round] and [%] *)
(* ===================================================================== *)

Section NumberFacts.
  Local Open Scope Q_scope.

  (** The floor is the only integer [n] with [n <= x < n + 1]. *)
Lemma Qfloor_unique (x : Q) (n : Z) :
    inject_Z n <= x -> x < inject_Z (n + 1) -> Qfloor x = n.
  Proof.
    intros Hle Hlt.
    assert (H1 : (n <= Qfloor x)%Z).
    { rewrite <- (Qfloor_Z n). apply Qfloor_resp_le. exact Hle. }
    assert (H2 : (Qfloor x < n + 1)%Z).
    { rewrite Zlt_Qlt. eapply Qle_lt_trans; [apply Qfloor_le | exact Hlt]. }
    lia.
  Qed.

Lemma Qfloor_minus_Z (x : Q) (k : Z) :
    Qfloor (x - inject_Z k) = (Qfloor x - k)%Z.
  Proof.
    apply Qfloor_unique.
    - unfold Z.sub. rewrite inject_Z_plus, inject_Z_opp.
      apply Qplus_le_compat; [apply Qfloor_le | apply Qle_refl].
    - replace (Qfloor x - k + 1)%Z with ((Qfloor x + 1) + - k)%Z by lia.
      rewrite inject_Z_plus, inject_Z_opp.
      apply Qplus_lt_le_compat; [apply Qlt_floor | apply Qle_refl].
  Qed.

  (** On non-negative numbers truncation is the floor. *)
Lemma trunc_nonneg (x : Q) : 0 <= x -> Js.trunc x = Qfloor x.
  Proof.
    destruct x as [n d]. unfold Qle, Js.trunc, Qfloor. cbn.
    intros Hn. apply Z.quot_div_nonneg; lia.
  Qed.

Lemma rem_nonneg_eq (x m : Q) :
    0 <= x -> 0 < m -> Js.rem x m == x - m * inject_Z (Qfloor (x / m)).
  Proof.
    intros Hx Hm. unfold Js.rem. rewrite trunc_nonneg; [reflexivity|].
    apply Qle_shift_div_l; [exact Hm|]. rewrite Qmult_0_l. exact Hx.
  Qed.

  (** [0 <= x % m < m] for a non-negative dividend. *)
Lemma rem_nonneg_bounds (x m : Q) :
    0 <= x -> 0 < m -> 0 <= Js.rem x m /\ Js.rem x m < m.
  Proof.
    intros Hx Hm. rewrite (rem_nonneg_eq x m Hx Hm).
    assert (Hlo := Qfloor_le (x / m)).
    assert (Hhi := Qlt_floor (x / m)).
    assert (Hxm : x == m * (x / m)) by (field; intros E; rewrite E in Hm; discriminate).
    set (k := Qfloor (x / m)) in *.
    rewrite inject_Z_plus in Hhi.
    apply (Qmult_le_l _ _ m Hm) in Hlo. rewrite <- Hxm in Hlo.
    apply (Qmult_lt_l _ _ m Hm) in Hhi. rewrite <- Hxm in Hhi.
    rewrite Qmult_plus_distr_r in Hhi.
    change (inject_Z 1) with 1 in Hhi. rewrite Qmult_1_r in Hhi.
    set (mk := m * inject_Z k) in *.
    split; lra.
  Qed.

  (** Reducing at every step is reducing the sum. *)
Lemma rem_accumulates (e d m : Q) :
    0 <= e -> 0 <= d -> 0 < m ->
    Js.rem (Js.rem e m + d) m == Js.rem (e + d) m.
  Proof.
    intros He Hd Hm.
    destruct (rem_nonneg_bounds e m He Hm) as [Hr0 _].
    assert (Hm0 : ~ m == 0) by (intros E; rewrite E in Hm; discriminate).
    assert (Er := rem_nonneg_eq e m He Hm).
    set (r := Js.rem e m) in *. set (k := Qfloor (e / m)) in *.
    rewrite (rem_nonneg_eq (r + d) m) by (try exact Hm; lra).
    rewrite (rem_nonneg_eq (e + d) m) by (try exact Hm; lra).
    assert (Hf : Qfloor ((r + d) / m) = (Qfloor ((e + d) / m) - k)%Z).
    { rewrite <- Qfloor_minus_Z. apply Qfloor_comp.
      rewrite Er. field. exact Hm0. }
    rewrite Hf. unfold Z.sub. rewrite inject_Z_plus, inject_Z_opp, Er. ring.
  Qed.

Lemma rem_small (x m : Q) : 0 <= x -> x < m -> Js.rem x m == x.
  Proof.
    intros Hx Hlt. assert (Hm : 0 < m) by lra.
    rewrite (rem_nonneg_eq x m Hx Hm).
    assert (Hf : Qfloor (x / m) = 0%Z).
    { apply Qfloor_unique.
      - apply Qle_shift_div_l; [exact Hm|]. change (inject_Z 0) with 0. lra.
      - apply Qlt_shift_div_r; [exact Hm|]. change (inject_Z (0 + 1)) with 1. lra. }
    rewrite Hf. change (inject_Z 0) with 0. ring.
  Qed.

Lemma rem_self (m : Q) : 0 < m -> Js.rem m m == 0.
  Proof.
    intros Hm. rewrite (rem_nonneg_eq m m) by lra.
    assert (Hm0 : ~ m == 0) by (intros E; rewrite E in Hm; discriminate).
    assert (Hq : m / m == inject_Z 1) by (change (inject_Z 1) with 1; field; exact Hm0).
    rewrite Hq, Qfloor_Z. change (inject_Z 1) with 1. ring.
  Qed.

Lemma rem_compat (x x' m m' : Q) :
    0 <= x -> 0 < m -> x == x' -> m == m' -> Js.rem x m == Js.rem x' m'.
  Proof.
    intros Hx Hm Ex Em.
    rewrite (rem_nonneg_eq x m Hx Hm).
    rewrite (rem_nonneg_eq x' m') by (rewrite <- ?Ex, <- ?Em; assumption).
    assert (Hf : Qfloor (x / m) = Qfloor (x' / m'))
      by (apply Qfloor_comp; rewrite Ex, Em; reflexivity).
    rewrite Hf, Ex, Em. reflexivity.
  Qed.

Lemma Math_round_half_nonpos (x : Q) : x <= 0 -> Js.Math_round (x / 2) <= 0.
  Proof.
    intros Hx. unfold Js.Math_round.
    change 0 with (inject_Z 0). rewrite <- Zle_Qle.
    assert (H : (Qfloor (x / 2 + (1 # 2)) < 0 + 1)%Z).
    { rewrite Zlt_Qlt. eapply Qle_lt_trans; [apply Qfloor_le|].
      change (inject_Z (0 + 1)) with 1.
      assert (x / 2 == x * (1 # 2)) by (field). lra. }
    lia.
  Qed.

Lemma Math_round_half_nonneg (x : Q) : 0 <= x -> 0 <= Js.Math_round (x / 2).
  Proof.
    intros Hx. unfold Js.Math_round.
    change 0 with (inject_Z 0). rewrite <- Zle_Qle.
    rewrite <- (Qfloor_Z 0). apply Qfloor_resp_le.
    change (inject_Z 0) with 0.
    assert (x / 2 == x * (1 # 2)) by (field). lra.
  Qed.
End NumberFacts.

(* ===================================================================== *)
(** ** The highlight tracker *)
(* ===================================================================== *)

Section HighlighterFacts.
  Import Highlighter.

  (** Toggling layers never changes who is related to whom. *)
Lemma relatedOf_onLayers f o os x :
  relatedOf (onLayers f o os) x = relatedOf os x.
Proof.
  unfold relatedOf, onLayers.
  destruct (decide (o = x)) as [->|Hne].
  - rewrite lookup_alter_eq. destruct (os !! x); reflexivity.
  - rewrite lookup_alter_ne by exact Hne. reflexivity.
Qed.

Lemma relatedOf_forSiblings f sibs os x :
  relatedOf (forSiblings f sibs os) x = relatedOf os x.
Proof.
  unfold forSiblings. revert os.
  induction sibs as [|s sibs IH]; intros os; cbn; [reflexivity|].
  rewrite IH. apply relatedOf_onLayers.
Qed.

Lemma relatedOf_applyLayer f o os x :
  relatedOf (applyLayer f o os) x = relatedOf os x.
Proof.
  unfold applyLayer.
  destruct (os !! o) as [ob|]; [destruct (related ob)|];
    rewrite ?relatedOf_forSiblings; apply relatedOf_onLayers.
Qed.

Lemma existsb_swap (l1 l2 : list nat) :
  existsb (fun x => existsb (fun y => Nat.eqb y x) l2) l1 =
  existsb (fun y => existsb (fun x => Nat.eqb x y) l1) l2.
Proof.
  apply eq_true_iff_eq. rewrite !existsb_exists. split.
  - intros (x & Hx & H). apply existsb_exists in H as (y & Hy & E).
    apply Nat.eqb_eq in E. subst y. exists x. split; [exact Hy|].
    apply existsb_exists. exists x. split; [exact Hx | apply Nat.eqb_refl].
  - intros (y & Hy & H). apply existsb_exists in H as (x & Hx & E).
    apply Nat.eqb_eq in E. subst x. exists y. split; [exact Hx|].
    apply existsb_exists. exists y. split; [exact Hy | apply Nat.eqb_refl].
Qed.

  (** Overlap of two objects is symmetric. *)
Lemma areObjectOrRelatedEqual_sym s a b :
  areObjectOrRelatedEqual s a b = areObjectOrRelatedEqual s b a.
Proof.
  unfold areObjectOrRelatedEqual. rewrite (Nat.eqb_sym b a).
  destruct (Nat.eqb a b); [reflexivity|]. apply existsb_swap.
Qed.

Lemma areObjectOrRelatedEqual_layers f o s a b :
  areObjectOrRelatedEqual (with_objects s (applyLayer f o (objects s))) a b =
  areObjectOrRelatedEqual s a b.
Proof.
  unfold areObjectOrRelatedEqual. cbn. rewrite !relatedOf_applyLayer. reflexivity.
Qed.

  (** While the object that loses the selection is still recorded as the
      selected one, the attempt of [clearSelectedMaterial] to give the hover
      layer back stops at the guard of [setHoverMaterial]: only layer 2 is
      switched off. *)
Lemma clearSelectedMaterial_while_selected s a h :
  selectedObject s = Some a -> hoveredObject s = Some h ->
  areObjectOrRelatedEqual s a h = true ->
  clearSelectedMaterial a s = disableLayer a SELECTED_LAYER s.
Proof.
  intros Hs Hh Heq. unfold clearSelectedMaterial, disableLayer.
  cbn. rewrite Hh, areObjectOrRelatedEqual_layers, Heq.
  unfold setHoverMaterial. cbn. rewrite Hs.
  rewrite areObjectOrRelatedEqual_layers, areObjectOrRelatedEqual_sym, Heq.
  reflexivity.
Qed.

  (** After a deselection the selected reference is already cleared, and the
      same call does give the hover layer back. *)
Lemma clearSelectedMaterial_after_deselect s a h :
  selectedObject s = None -> hoveredObject s = Some h ->
  areObjectOrRelatedEqual s a h = true ->
  clearSelectedMaterial a s =
  enableLayer h HOVER_LAYER (disableLayer a SELECTED_LAYER s).
Proof.
  intros Hs Hh Heq. unfold clearSelectedMaterial.
  unfold disableLayer at 1 2. cbn. rewrite Hh, areObjectOrRelatedEqual_layers, Heq.
  unfold setHoverMaterial. cbn. rewrite Hs. reflexivity.
Qed.

(** C5: object 0 is hovered and selected (mask 5: layers 0 and 2, hover
    suppressed).  Selecting object 1 switches layer 2 off on object 0 and on
    on object 1, but layer 1 does not come back on the still hovered object
    0: its mask is 1.  Deselecting object 0 from the same state does bring
    layer 1 back (mask 3). *)
Theorem select_other_leaves_hover_layer_off :
  let s := Scenario.hoveredAndSelected in
  let s' := handle (object3DSelected 1) s in
  hoveredObject s = Some 0%nat /\ selectedObject s = Some 0%nat /\
  maskOf s 0%nat = Some 5%Z /\
  hoveredObject s' = Some 0%nat /\ selectedObject s' = Some 1%nat /\
  maskOf s' 0%nat = Some 1%Z /\
  Layers.isEnabled HOVER_LAYER 1 = false /\
  maskOf s' 1%nat = Some 5%Z /\
  maskOf (handle (object3DDeselected 0) s) 0%nat = Some 3%Z.
Proof. vm_compute. repeat split; reflexivity. Qed.

End HighlighterFacts.

(* ===================================================================== *)
(** ** Rendering: what a frame draws and what it leaves behind *)
(* ===================================================================== *)

(** The paths through a frame: animated or not, copied to the screen or
    not, something hovered or selected or nothing.  The case analysis is made
    on the pass and on the tracker's state themselves, so that every path
    computes. *)
Ltac frame_cases hl p :=
  destruct p as [[? ? ? ? [|] ? ?] ? ? ? ? ? ? ? ? ? [|]];
  destruct hl as [? [?|] [?|]].

Section RenderFacts.
  Import OutlinePass.
  Local Open Scope Q_scope.

  (** [render] changes one scalar field, [elapsed]. *)
Lemma render_settings hl rb dt ma p g :
  settings (fst (render hl rb dt ma p g)) =
  setElapsed (Js.rem (elapsed (settings p) + dt) (interval (settings p))) (settings p).
Proof. frame_cases hl p; reflexivity. Qed.

Lemma idle_renderOutline hl rb p g :
  shouldRenderOutline hl = false -> renderOutline hl rb p g = (p, g).
Proof. intros H. unfold renderOutline. rewrite H. reflexivity. Qed.

(** C2: when no object is hovered and none is selected,
    [shouldRenderOutline] is false and [render] sends the renderer nothing
    but the copy to the screen, and that only when [renderToScreen] is set:
    no clear, scene draw or quad draw reaches the mask or blur targets, which
    stay as they are. *)
Theorem idle_render_issues_no_outline_draws hl rb dt ma p g :
  Highlighter.hoveredObject hl = None ->
  Highlighter.selectedObject hl = None ->
  shouldRenderOutline hl = false /\
  calls (snd (render hl rb dt ma p g)) =
    calls g ++ (if renderToScreen p then [RenderQuad None (Some MaterialCopy)] else []) /\
  targets (fst (render hl rb dt ma p g)) = targets p.
Proof.
  intros Hh Hs.
  assert (Hidle : shouldRenderOutline hl = false).
  { unfold shouldRenderOutline, Highlighter.isAnyProductHighlighted.
    rewrite Hh, Hs. reflexivity. }
  split; [exact Hidle|].
  unfold render. rewrite idle_renderOutline by exact Hidle. cbn.
  destruct (renderToScreen p), ma; cbn; rewrite ?app_nil_r; split; reflexivity.
Qed.

Lemma idle_render_issues_no_outline_draws_witness :
  Highlighter.hoveredObject Scenario.twoObjects = None /\
  Highlighter.selectedObject Scenario.twoObjects = None /\
  calls (snd (render Scenario.twoObjects Scenario.readBuffer 1 true
                     (with_renderToScreen Scenario.pass800 true) Scenario.gfx0))
  = [RenderQuad None (Some MaterialCopy)].
Proof.
  split; [reflexivity|]. split; [reflexivity|].
  exact (proj1 (proj2 (idle_render_issues_no_outline_draws
           Scenario.twoObjects Scenario.readBuffer 1 true
           (with_renderToScreen Scenario.pass800 true) Scenario.gfx0
           eq_refl eq_refl))).
Defined.

(** C7, as the code has it: after every [render] the renderer's auto-clear
    flag, clear colour and clear alpha are those at entry.  When something is
    highlighted the camera is left on layer 0 and the scene's override
    material is cleared; on the idle path the camera's layers and the
    override material are left as they were at entry. *)
Theorem render_restores_clear_state hl rb dt ma p g :
  let g' := snd (render hl rb dt ma p g) in
  autoClear g' = autoClear g /\
  clearColor g' = clearColor g /\
  clearAlpha g' = clearAlpha g /\
  (if shouldRenderOutline hl
   then cameraLayers g' = Layers.set 0 /\ overrideMaterial g' = None
   else cameraLayers g' = cameraLayers g /\ overrideMaterial g' = overrideMaterial g).
Proof. frame_cases hl p; destruct ma; repeat split; reflexivity. Qed.

(** C7 as stated fails: with nothing highlighted, a camera that sees layers
    0 and 3 and a scene with an override material of the application's come
    out of [render] unchanged, not on layer 0 with the override cleared. *)
Lemma idle_render_keeps_camera_layers_and_override :
  ~ (forall hl rb dt ma p g,
        let g' := snd (render hl rb dt ma p g) in
        autoClear g' = autoClear g /\
        clearColor g' = clearColor g /\
        clearAlpha g' = clearAlpha g /\
        cameraLayers g' = Layers.set 0 /\
        overrideMaterial g' = None).
Proof.
  intros H.
  destruct (H Scenario.twoObjects Scenario.readBuffer 1 false
              Scenario.pass800 Scenario.gfxCustom) as (_ & _ & _ & Hc & _).
  vm_compute in Hc. discriminate Hc.
Qed.

End RenderFacts.

(* ===================================================================== *)
(** ** Sizes *)
(* ===================================================================== *)

Section SizeFacts.
  Import OutlinePass.
  Local Open Scope Q_scope.

  (** The five targets after [setSize]: the two vertical ones are those the
      pass had before. *)
Lemma setSize_targets w h p :
  targets (setSize w h p) =
  mkTargets (mkRenderTarget w h)
    (mkRenderTarget (Js.Math_round (w / 2)) (Js.Math_round (h / 2)))
    (blurVerticalRenderTarget (targets p))
    (mkRenderTarget (Js.Math_round (Js.Math_round (w / 2) / 2))
                    (Js.Math_round (Js.Math_round (h / 2) / 2)))
    (blurVerticalHalfRenderTarget2 (targets p)).
Proof. reflexivity. Qed.

(** C1, as the code has it: for positive [w] and [h], [setSize w h] sets the
    mask target to [(w, h)], the horizontal full-resolution blur target to
    [(round (w/2), round (h/2))] and the horizontal half-resolution blur
    target to [(round (round (w/2) / 2), round (round (h/2) / 2))], with the
    texel-size uniforms of the two blur materials equal to these target
    sizes; the sizes are non-negative, depend on [w] and [h] only, and a
    second [setSize w h] changes nothing. *)
Theorem setSize_sets_mask_and_horizontal_blur_targets w h p :
  0 < w -> 0 < h ->
  let p' := setSize w h p in
  let t := targets p' in
  maskRenderTarget t = mkRenderTarget w h /\
  blurHorizontalRenderTarget t =
    mkRenderTarget (Js.Math_round (w / 2)) (Js.Math_round (h / 2)) /\
  blurHorizontalHalfRenderTarget t =
    mkRenderTarget (Js.Math_round (Js.Math_round (w / 2) / 2))
                   (Js.Math_round (Js.Math_round (h / 2) / 2)) /\
  texSize (blurMaterial p') =
    mkVector2 (width (blurHorizontalRenderTarget t))
              (height (blurHorizontalRenderTarget t)) /\
  texSize (blurHalfMaterial p') =
    mkVector2 (width (blurHorizontalHalfRenderTarget t))
              (height (blurHorizontalHalfRenderTarget t)) /\
  0 <= width (blurHorizontalRenderTarget t) /\
  0 <= height (blurHorizontalRenderTarget t) /\
  0 <= width (blurHorizontalHalfRenderTarget t) /\
  0 <= height (blurHorizontalHalfRenderTarget t) /\
  setSize w h p' = p'.
Proof.
  intros Hw Hh. cbn.
  repeat split; try reflexivity;
    repeat apply Math_round_half_nonneg; apply Qlt_le_weak; assumption.
Qed.

Lemma setSize_sets_mask_and_horizontal_blur_targets_witness :
  let p' := setSize 1001 601 Scenario.pass800 in
  0 < 1001 /\ 0 < 601 /\
  maskRenderTarget (targets p') = mkRenderTarget 1001 601 /\
  blurHorizontalRenderTarget (targets p') = mkRenderTarget 501 301 /\
  blurHorizontalHalfRenderTarget (targets p') = mkRenderTarget 251 151.
Proof.
  destruct (setSize_sets_mask_and_horizontal_blur_targets 1001 601 Scenario.pass800
              eq_refl eq_refl) as (Hm & Hb & Hh & _).
  exact (conj eq_refl (conj eq_refl (conj Hm (conj Hb Hh)))).
Defined.

(** C1 as stated fails: on a pass built for 800 x 600, [setSize 1001 601]
    leaves the two vertical blur targets at 400 x 300 and 200 x 150, and the
    horizontal half-resolution target gets 251 x 151 where [round (1001/4)]
    and [round (601/4)] are 250 and 150. *)
Lemma setSize_vertical_targets_stale_and_half_rounds_twice :
  ~ (forall w h p, 0 < w -> 0 < h ->
       let t := targets (setSize w h p) in
       sizeIs (maskRenderTarget t) w h /\
       sizeIs (blurHorizontalRenderTarget t)
              (Js.Math_round (w / 2)) (Js.Math_round (h / 2)) /\
       sizeIs (blurVerticalRenderTarget t)
              (Js.Math_round (w / 2)) (Js.Math_round (h / 2)) /\
       sizeIs (blurHorizontalHalfRenderTarget t)
              (Js.Math_round (w / 4)) (Js.Math_round (h / 4)) /\
       sizeIs (blurVerticalHalfRenderTarget2 t)
              (Js.Math_round (w / 4)) (Js.Math_round (h / 4)))
  /\
  (let t := targets (setSize 1001 601 Scenario.pass800) in
   blurVerticalRenderTarget t = mkRenderTarget 400 300 /\
   blurVerticalHalfRenderTarget2 t = mkRenderTarget 200 150 /\
   blurHorizontalHalfRenderTarget t = mkRenderTarget 251 151 /\
   Js.Math_round (1001 / 4) = 250 /\ Js.Math_round (601 / 4) = 150).
Proof.
  split.
  - intros H.
    destruct (H 1001 601 Scenario.pass800 eq_refl eq_refl)
      as (_ & _ & _ & [Hw _] & _).
    vm_compute in Hw. discriminate Hw.
  - vm_compute. repeat split; reflexivity.
Qed.

(** C8, as the code has it: [setSize] has no guard.  When [w] or [h] is zero
    or negative the mask target is still set to [(w, h)], the horizontal
    blur targets and the texel-size uniforms to the rounded halves, and the
    offending dimension reaches the blur targets as a value that is zero or
    negative. *)
Theorem setSize_hands_down_degenerate_sizes w h p :
  w <= 0 \/ h <= 0 ->
  let p' := setSize w h p in
  let t := targets p' in
  maskRenderTarget t = mkRenderTarget w h /\
  blurHorizontalRenderTarget t =
    mkRenderTarget (Js.Math_round (w / 2)) (Js.Math_round (h / 2)) /\
  blurHorizontalHalfRenderTarget t =
    mkRenderTarget (Js.Math_round (Js.Math_round (w / 2) / 2))
                   (Js.Math_round (Js.Math_round (h / 2) / 2)) /\
  texSize (blurMaterial p') =
    mkVector2 (Js.Math_round (w / 2)) (Js.Math_round (h / 2)) /\
  texSize (blurHalfMaterial p') =
    mkVector2 (Js.Math_round (Js.Math_round (w / 2) / 2))
              (Js.Math_round (Js.Math_round (h / 2) / 2)) /\
  ((w <= 0 /\ width (blurHorizontalRenderTarget t) <= 0
           /\ width (blurHorizontalHalfRenderTarget t) <= 0) \/
   (h <= 0 /\ height (blurHorizontalRenderTarget t) <= 0
           /\ height (blurHorizontalHalfRenderTarget t) <= 0)).
Proof.
  intros Hd. cbn. repeat split.
  destruct Hd as [Hw | Hh]; [left | right]; repeat split; try assumption;
    repeat apply Math_round_half_nonpos; assumption.
Qed.

Lemma setSize_hands_down_degenerate_sizes_witness :
  (0 <= 0 \/ -3 <= 0) /\
  maskRenderTarget (targets (setSize 0 (-3) Scenario.pass800)) = mkRenderTarget 0 (-3).
Proof.
  split; [left; discriminate|].
  refine (proj1 (setSize_hands_down_degenerate_sizes 0 (-3) Scenario.pass800 _)).
  left. discriminate.
Defined.

(** C8 as stated fails: [setSize 0 0] on a pass built for 800 x 600 is not a
    no-op, the mask target becomes 0 x 0. *)
Lemma setSize_zero_is_not_ignored :
  ~ (forall w h p, w <= 0 \/ h <= 0 -> setSize w h p = p).
Proof.
  intros H.
  assert (E := H 0 0 Scenario.pass800 (or_introl (Qle_refl 0))).
  apply (f_equal (fun p => Qnum (width (maskRenderTarget (targets p))))) in E.
  vm_compute in E. discriminate E.
Qed.

End SizeFacts.

(* ===================================================================== *)
(** ** Options and the animation clock *)
(* ===================================================================== *)

Section OptionFacts.
  Import OutlinePass.
  Local Open Scope Q_scope.

  (** The scalar fields after [setOptions]: the assignments, and [elapsed]
      back at 0 when the animation is off. *)
Lemma setOptions_settings o p :
  settings (setOptions o p) =
  let s := applyOptions o (settings p) in
  if animateOutline s then s else setElapsed 0 s.
Proof.
  unfold setOptions. cbn zeta.
  destruct (animateOutline (applyOptions o (settings p))); reflexivity.
Qed.

(** C10: when [options.edgeGlow] is left out, [setOptions] sets [edgeGlow] to
    the [edgeThickness] in effect after [options.edgeThickness] is applied;
    [edgeThickness], [startU], [tileCount], [animateOutline] and the
    interval keep their values when they are left out. *)
Theorem setOptions_edgeGlow_defaults_to_edgeThickness o p :
  opt_edgeGlow o = None ->
  let s := settings p in
  let s' := settings (setOptions o p) in
  edgeThickness s' = Js.nullish (opt_edgeThickness o) (edgeThickness s) /\
  edgeGlow s' = edgeThickness s' /\
  (opt_edgeThickness o = None -> edgeThickness s' = edgeThickness s) /\
  (opt_startU o = None -> startU s' = startU s) /\
  (opt_tileCount o = None -> tileCount s' = tileCount s) /\
  (opt_animateOutline o = None -> animateOutline s' = animateOutline s) /\
  (opt_animationInterval o = None -> interval s' = interval s).
Proof.
  intros Hg. cbn zeta. rewrite setOptions_settings. cbn zeta.
  destruct o as [oet oeg osu otc oan oiv]. cbn in Hg. subst oeg.
  unfold applyOptions. cbn.
  destruct (Js.nullish oan (animateOutline (settings p))) eqn:Ean;
    cbn; repeat split; intros; subst; cbn in *; try reflexivity; congruence.
Qed.

Lemma setOptions_edgeGlow_defaults_to_edgeThickness_witness :
  let o := mkOptions (Some 3) None None None None None in
  opt_edgeGlow o = None /\
  edgeGlow (settings Scenario.pass800) = 1 /\
  edgeGlow (settings (setOptions o Scenario.pass800)) = 3.
Proof.
  split; [reflexivity|]. split; [reflexivity|].
  destruct (setOptions_edgeGlow_defaults_to_edgeThickness
              (mkOptions (Some 3) None None None None None) Scenario.pass800 eq_refl)
    as (Ht & Hg & _).
  exact (eq_trans Hg Ht).
Defined.

  (** The uniform half of the still-animation invariant holds: every
      operation establishes or keeps [stillUniform]. *)
Lemma stillUniform_constructor res o : stillUniform (constructor res o).
Proof. intros _. reflexivity. Qed.

Lemma stillUniform_setOptions o p : stillUniform (setOptions o p).
Proof.
  unfold stillUniform. rewrite setOptions_settings. unfold setOptions. cbn zeta.
  destruct (animateOutline (applyOptions o (settings p))) eqn:E.
  - intros H. congruence.
  - intros _. reflexivity.
Qed.

Lemma stillUniform_setOutputMode m p : stillUniform (setOutputMode m p).
Proof. intros _. reflexivity. Qed.

Lemma stillUniform_setSize w h p : stillUniform p -> stillUniform (setSize w h p).
Proof. intros H. exact H. Qed.

Lemma stillUniform_render hl rb dt ma p g :
  stillUniform p -> stillUniform (fst (render hl rb dt ma p g)).
Proof.
  unfold stillUniform. intros H Ha.
  frame_cases hl p; first [discriminate Ha | exact (H eq_refl)].
Qed.

  (** The clock half does not: a frame of [dt] seconds moves [elapsed] from
      0 to [dt] whether or not the animation is on. *)
Lemma render_advances_elapsed_when_still hl rb dt ma p g :
  animateOutline (settings p) = false ->
  elapsed (settings p) == 0 -> 0 < dt -> dt < interval (settings p) ->
  elapsed (settings (fst (render hl rb dt ma p g))) == dt.
Proof.
  intros _ He Hdt Hlt. rewrite render_settings. cbn.
  rewrite rem_small; lra.
Qed.

(** C4: a pass built with [animateOutline] off has [elapsed] 0; one
    [render] with a frame time of 1 s leaves [animateOutline] off and
    [elapsed] at 1, not 0.  The [startU] uniform still is the configured
    [startU]. *)
Theorem render_while_still_advances_elapsed :
  let p := Scenario.passStill in
  let p' := fst (render Scenario.twoObjects Scenario.readBuffer 1 false p Scenario.gfx0) in
  animateOutline (settings p) = false /\
  elapsed (settings p) == 0 /\
  animateOutline (settings p') = false /\
  elapsed (settings p') == 1 /\
  ~ elapsed (settings p') == 0 /\
  u_startU (outlineMaterial p') = startU (settings p').
Proof. vm_compute. repeat split; try reflexivity; discriminate. Qed.

End OptionFacts.

(* ===================================================================== *)
(** ** Channel textures *)
(* ===================================================================== *)

Section TextureFacts.
  Import OutlinePass.

Lemma RtRef_eqb_eq a b : RtRef_eqb a b = true -> a = b.
Proof.
  destruct a, b; cbn; try discriminate; try reflexivity.
  intros H. apply Nat.eqb_eq in H. congruence.
Qed.

  (** Switching a channel to a render target repoints its uniform to that
      target's texture. *)
Lemma bound_setTextureRenderTarget key r p :
  bound key p ->
  bound key (setTextureRenderTarget key r p) /\
  getUniform key (outlineMaterial (setTextureRenderTarget key r p)) = TargetTexture r.
Proof.
  unfold bound, setTextureRenderTarget, sameTarget. intros Hb.
  destruct (getKey key p) as [t|r'] eqn:Ek.
  - destruct key; cbn; split; reflexivity.
  - destruct (RtRef_eqb r' r) eqn:Er.
    + apply RtRef_eqb_eq in Er. subst r'. rewrite Hb, Ek. split; reflexivity.
    + destruct key; cbn; split; reflexivity.
Qed.

Lemma bound_createAndSetTexture key p :
  bound key (snd (createAndSetTexture key p)).
Proof. destruct key; reflexivity. Qed.

  (** Coming from a render target, [setTextureTexture] binds a new texture
      and returns without giving it the image. *)
Lemma setTextureTexture_after_target key im r p :
  getKey key p = IsRenderTarget r ->
  let p' := setTextureTexture key im p in
  getKey key p' = IsTexture (length (textures p)) /\
  getUniform key (outlineMaterial p') = TextureObj (length (textures p)) /\
  boundImage key p' = None.
Proof.
  intros Hk. unfold setTextureTexture. rewrite Hk.
  unfold boundImage. destruct key; cbn;
    rewrite lookup_app_r, Nat.sub_diag by reflexivity; repeat split; reflexivity.
Qed.

(** C6: the hover channel of a pass is given canvas A, then a render target,
    then canvas B.  After the first two steps the uniform refers to a
    texture with image A and to the render target's texture.  After the
    third it refers to a new texture (number 2) that has no image: canvas B
    is not bound.  Only a further [setColors] with canvas B puts the image
    on that texture. *)
Theorem image_after_render_target_is_not_bound :
  let p1 := setColors (mkColors (Some (FromImage Scenario.canvasA)) None) Scenario.pass800 in
  let p2 := setColors (mkColors (Some (FromRenderTarget (OtherTarget 7))) None) p1 in
  let p3 := setColors (mkColors (Some (FromImage Scenario.canvasB)) None) p2 in
  boundImage hoverTextureKey p1 = Some Scenario.canvasA /\
  u_hoverTexture (outlineMaterial p2) = TargetTexture (OtherTarget 7) /\
  u_hoverTexture (outlineMaterial p3) = TextureObj 2 /\
  hoverTexture p3 = IsTexture 2 /\
  boundImage hoverTextureKey p3 = None /\
  boundImage hoverTextureKey p3 <> Some Scenario.canvasB /\
  boundImage hoverTextureKey
    (setColors (mkColors (Some (FromImage Scenario.canvasB)) None) p3)
    = Some Scenario.canvasB.
Proof. vm_compute. repeat split; try reflexivity; discriminate. Qed.

End TextureFacts.

(* ===================================================================== *)
(** ** The animated scroll offset *)
(* ===================================================================== *)

Section AnimationFacts.
  Import OutlinePass.
  Local Open Scope Q_scope.

  (** An active, animated render leaves the scroll offset computed from the
      elapsed time it has just updated. *)
Lemma render_active_scroll hl rb dt ma p g :
  shouldRenderOutline hl = true -> animateOutline (settings p) = true ->
  let p' := fst (render hl rb dt ma p g) in
  u_startU (outlineMaterial p') =
  startU (settings p) + tileCount (settings p) * (elapsed (settings p') / interval (settings p)).
Proof.
  intros Hact Han. frame_cases hl p; first [discriminate | reflexivity].
Qed.

Lemma renderFrames_cons rb ma f fs p g :
  renderFrames rb ma (f :: fs) p g =
  renderFrames rb ma fs (fst (render (fst f) rb (snd f) ma p g))
                        (snd (render (fst f) rb (snd f) ma p g)).
Proof.
  unfold renderFrames. cbn.
  destruct (render (fst f) rb (snd f) ma p g); reflexivity.
Qed.

Lemma renderFrames_snoc rb ma fs f p g :
  renderFrames rb ma (fs ++ [f]) p g =
  render (fst f) rb (snd f) ma (fst (renderFrames rb ma fs p g))
                               (snd (renderFrames rb ma fs p g)).
Proof. unfold renderFrames. rewrite fold_left_app. reflexivity. Qed.

Lemma sumDeltas_nonneg fs :
  Forall (fun fr : Highlighter.State * Q => 0 <= snd fr) fs -> 0 <= Scenario.sumDeltas fs.
Proof.
  unfold Scenario.sumDeltas. induction 1 as [|f fs Hf _ IH]; cbn; [discriminate|lra].
Qed.

Lemma settings_after_render_fields hl rb dt ma p g :
  let s := settings p in
  let s' := settings (fst (render hl rb dt ma p g)) in
  startU s' = startU s /\ tileCount s' = tileCount s /\
  animateOutline s' = animateOutline s /\ interval s' = interval s /\
  elapsed s' = Js.rem (elapsed s + dt) (interval s).
Proof. cbn zeta. rewrite render_settings. repeat split; reflexivity. Qed.

  (** Over a run of frames with non-negative frame times the other scalar
      fields stay, and [elapsed] is the start value plus the sum of the frame
      times, reduced modulo [interval]. *)
Lemma renderFrames_settings rb ma fs : forall f p g,
  Forall (fun fr : Highlighter.State * Q => 0 <= snd fr) (f :: fs) ->
  0 < interval (settings p) -> 0 <= elapsed (settings p) ->
  let s := settings p in
  let s' := settings (fst (renderFrames rb ma (f :: fs) p g)) in
  startU s' = startU s /\ tileCount s' = tileCount s /\
  animateOutline s' = animateOutline s /\ interval s' = interval s /\
  0 <= elapsed s' /\
  elapsed s' == Js.rem (elapsed s + Scenario.sumDeltas (f :: fs)) (interval s).
Proof.
  induction fs as [|f' fs IH]; intros f p g Hfs Hm He; cbn zeta;
    rewrite renderFrames_cons;
    destruct (settings_after_render_fields (fst f) rb (snd f) ma p g)
      as (Hs & Ht & Ha & Hi & Hel);
    inversion Hfs as [|? ? Hf Hrest]; subst;
    destruct (rem_nonneg_bounds (elapsed (settings p) + snd f) (interval (settings p)))
      as [Hr0 Hr1]; try lra.
  - unfold renderFrames. cbn [fold_left fst snd].
    rewrite Hs, Ht, Ha, Hi, Hel. repeat split; try reflexivity; try assumption.
    unfold Scenario.sumDeltas. cbn.
    apply rem_compat; lra || reflexivity.
  - set (p1 := fst (render (fst f) rb (snd f) ma p g)) in *.
    set (g1 := snd (render (fst f) rb (snd f) ma p g)) in *.
    destruct (IH f' p1 g1 Hrest) as (Hs' & Ht' & Ha' & Hi' & He0 & He').
    { rewrite Hi. exact Hm. }
    { rewrite Hel. exact Hr0. }
    rewrite Hs', Ht', Ha', Hi', Hs, Ht, Ha, Hi.
    repeat split; try reflexivity; try assumption.
    rewrite He', Hi, Hel.
    assert (Hsum := sumDeltas_nonneg (f' :: fs) Hrest).
    rewrite rem_accumulates by (try assumption; lra).
    unfold Scenario.sumDeltas in *. cbn in *.
    apply rem_compat; lra || reflexivity.
Qed.

(** In the exact arithmetic of [OutlinePass], which leaves out the rounding
    of the source: take any run of frames with non-negative frame times on a
    pass whose animation is on and whose interval is positive, the last frame
    being rendered with something highlighted.  Each frame sets [elapsed] to
    [(elapsed + deltaTime) % interval], so that after the run [elapsed] is the
    start value plus the sum of the frame times modulo [interval]; and the
    [startU] uniform is [startU + tileCount * (elapsed / interval)] for the
    [elapsed] just reached.  With interval 60, tileCount 2, startU 0 and
    [elapsed] starting at 0: frame times summing to 30 give the uniform 1,
    frame times summing to 60 give [elapsed] 0 and the uniform 0. *)
Lemma exact_scroll_follows_elapsed rb ma frames hl dt p g :
  animateOutline (settings p) = true ->
  0 < interval (settings p) ->
  0 <= elapsed (settings p) ->
  Forall (fun fr : Highlighter.State * Q => 0 <= snd fr) (frames ++ [(hl, dt)]) ->
  shouldRenderOutline hl = true ->
  let s := settings p in
  let total := Scenario.sumDeltas (frames ++ [(hl, dt)]) in
  let before := fst (renderFrames rb ma frames p g) in
  let p' := fst (renderFrames rb ma (frames ++ [(hl, dt)]) p g) in
  elapsed (settings p') =
    Js.rem (elapsed (settings before) + dt) (interval s) /\
  elapsed (settings p') == Js.rem (elapsed s + total) (interval s) /\
  u_startU (outlineMaterial p') =
    startU s + tileCount s * (elapsed (settings p') / interval s) /\
  (interval s == 60 -> tileCount s == 2 -> startU s == 0 -> elapsed s == 0 ->
   (total == 30 -> u_startU (outlineMaterial p') == 1) /\
   (total == 60 ->
    elapsed (settings p') == 0 /\ u_startU (outlineMaterial p') == 0)).
Proof.
  intros Han Hm He Hfs Hact. cbn zeta.
  assert (Hacc : elapsed (settings (fst (renderFrames rb ma (frames ++ [(hl, dt)]) p g)))
                 == Js.rem (elapsed (settings p)
                            + Scenario.sumDeltas (frames ++ [(hl, dt)]))
                           (interval (settings p))).
  { destruct (frames ++ [(hl, dt)]) as [|f fs] eqn:E.
    - destruct frames; discriminate E.
    - apply (renderFrames_settings rb ma fs f p g Hfs Hm He). }
  assert (Hpre :
    startU (settings (fst (renderFrames rb ma frames p g))) = startU (settings p) /\
    tileCount (settings (fst (renderFrames rb ma frames p g))) = tileCount (settings p) /\
    animateOutline (settings (fst (renderFrames rb ma frames p g)))
      = animateOutline (settings p) /\
    interval (settings (fst (renderFrames rb ma frames p g))) = interval (settings p)).
  { destruct frames as [|f fs].
    - cbn. repeat split; reflexivity.
    - apply Forall_app in Hfs as [Hfs _].
      destruct (renderFrames_settings rb ma fs f p g Hfs Hm He) as (? & ? & ? & ? & _).
      repeat split; assumption. }
  destruct Hpre as (Hs & Ht & Ha & Hi).
  rewrite renderFrames_snoc. cbn [fst snd].
  set (q := fst (renderFrames rb ma frames p g)) in *.
  set (gq := snd (renderFrames rb ma frames p g)) in *.
  assert (Hscroll := render_active_scroll hl rb dt ma q gq Hact (eq_trans Ha Han)).
  cbn zeta in Hscroll. rewrite Hs, Ht, Hi in Hscroll.
  assert (Hstep : elapsed (settings (fst (render hl rb dt ma q gq))) =
                  Js.rem (elapsed (settings q) + dt) (interval (settings p))).
  { rewrite render_settings, Hi. reflexivity. }
  rewrite renderFrames_snoc in Hacc. cbn [fst snd] in Hacc. fold q gq in Hacc.
  split; [exact Hstep|]. split; [exact Hacc|]. split; [exact Hscroll|].
  intros Ei Et Es Ee.
  assert (Hm0 : ~ interval (settings p) == 0) by (rewrite Ei; discriminate).
  split.
  - intros Etot. rewrite Hscroll, Hacc.
    rewrite (rem_compat _ 30 _ 60)
      by (try assumption; rewrite ?Ee, ?Etot; lra || reflexivity).
    rewrite Es, Et, Ei. reflexivity.
  - intros Etot.
    assert (E0 : elapsed (settings (fst (render hl rb dt ma q gq))) == 0).
    { rewrite Hacc.
      rewrite (rem_compat _ 60 _ 60)
        by (try assumption; rewrite ?Ee, ?Etot; lra || reflexivity).
      reflexivity. }
    split; [exact E0|].
    rewrite Hscroll, E0, Es, Et, Ei. reflexivity.
Qed.

Lemma exact_scroll_follows_elapsed_example :
  let frames := [(Scenario.hoveredOnly, 10); (Scenario.twoObjects, 12 + (1 # 2))] in
  let last := (Scenario.hoveredOnly, 7 + (1 # 2)) in
  let p' := fst (renderFrames Scenario.readBuffer false (frames ++ [last])
                              Scenario.passAnimated Scenario.gfx0) in
  animateOutline (settings Scenario.passAnimated) = true /\
  0 < interval (settings Scenario.passAnimated) /\
  Scenario.sumDeltas (frames ++ [last]) == 30 /\
  u_startU (outlineMaterial p') == 1.
Proof.
  cbn zeta.
  split; [reflexivity|]. split; [reflexivity|]. split; [reflexivity|].
  refine (proj1 (proj2 (proj2 (proj2
    (exact_scroll_follows_elapsed Scenario.readBuffer false
       [(Scenario.hoveredOnly, 10); (Scenario.twoObjects, 12 + (1 # 2))]
       Scenario.hoveredOnly (7 + (1 # 2)) Scenario.passAnimated Scenario.gfx0
       eq_refl eq_refl _ _ eq_refl))) _ _ _ _) _).
  - discriminate.
  - repeat constructor; discriminate.
  - reflexivity.
  - reflexivity.
  - reflexivity.
  - reflexivity.
  - reflexivity.
Defined.

End AnimationFacts.

(* ===================================================================== *)
(** ** The animation clock in binary64 *)
(* ===================================================================== *)

Section AnimationFacts64.
  Import Binary64 OutlinePass64.







End AnimationFacts64.

(* ===================================================================== *)
(** ** The composite shader *)
(* ===================================================================== *)

Section ShaderFacts.
  Import CompositeShader.
  Local Open Scope Q_scope.

Lemma clamp_bounds x : 0 <= clamp x 0 1 <= 1.
Proof.
  unfold clamp. split.
  - apply Q.min_glb; [apply Q.le_max_r | discriminate].
  - apply Q.le_min_r.
Qed.

Lemma clamp_compat x y : x == y -> clamp x 0 1 == clamp y 0 1.
Proof. intros E. unfold clamp. rewrite E. reflexivity. Qed.

  (** For non-negative blur values the shader's [min(sum, 1)] is the sum
      clamped to [0, 1]. *)
Lemma combined_is_clamped a b :
  0 <= a -> 0 <= b -> Qmin (a + b) 1 == clamp (a + b) 0 1.
Proof.
  intros Ha Hb. unfold clamp. rewrite Q.max_l by lra. reflexivity.
Qed.

Lemma getOutlineColor_edge mask a b c :
  0 <= a -> 0 <= b ->
  w4 (getOutlineColor mask (Qmin (a + b) 1) c) == spec_edge mask a b.
Proof.
  intros Ha Hb. unfold getOutlineColor, spec_edge. cbn.
  apply clamp_compat. rewrite (combined_is_clamped a b Ha Hb). reflexivity.
Qed.

(** C9: for every pixel, with the two sampled blur texels in [0, 1], the
    fragment shader's output is built from the two edges
    [edge_c = clamp ((blur_c - mask_c) * 2.5, 0, 1)], where [blur_c] is the sum
    of the full and half resolution blur values clamped to [0, 1], [c] being
    the red channel for hover and the green channel for selected: each
    colour component is the sum of the two channel colours weighted by their
    edges, and alpha is the larger of the two edges.  Edges and alpha lie in
    [0, 1]. *)
Theorem composite_shader_formula maskColor blurColor blurHalfColor hoverC selectedC :
  texel blurColor -> texel blurHalfColor ->
  let out := main maskColor blurColor blurHalfColor hoverC selectedC in
  let edgeHover := spec_edge (x4 maskColor) (x4 blurColor) (x4 blurHalfColor) in
  let edgeSelected := spec_edge (y4 maskColor) (y4 blurColor) (y4 blurHalfColor) in
  x4 out == x3 hoverC * edgeHover + x3 selectedC * edgeSelected /\
  y4 out == y3 hoverC * edgeHover + y3 selectedC * edgeSelected /\
  z4 out == z3 hoverC * edgeHover + z3 selectedC * edgeSelected /\
  w4 out == Qmax edgeHover edgeSelected /\
  0 <= edgeHover <= 1 /\ 0 <= edgeSelected <= 1 /\ 0 <= w4 out <= 1.
Proof.
  intros Hb Hh. cbn zeta.
  destruct Hb as ((Hbx & _) & (Hby & _) & _).
  destruct Hh as ((Hhx & _) & (Hhy & _) & _).
  assert (Eh := getOutlineColor_edge (x4 maskColor) _ _ hoverC Hbx Hhx).
  assert (Es := getOutlineColor_edge (y4 maskColor) _ _ selectedC Hby Hhy).
  unfold main. cbn [x4 y4 z4 w4 x3 y3 z3] in *.
  set (eh := spec_edge (x4 maskColor) (x4 blurColor) (x4 blurHalfColor)) in *.
  set (es := spec_edge (y4 maskColor) (y4 blurColor) (y4 blurHalfColor)) in *.
  assert (Beh : 0 <= eh <= 1) by apply clamp_bounds.
  assert (Bes : 0 <= es <= 1) by apply clamp_bounds.
  unfold getOutlineColor in *. cbn [x4 y4 z4 w4 x3 y3 z3] in *.
  rewrite Eh, Es.
  repeat split; try reflexivity; try tauto.
  - apply Q.max_case_strong; intros; try tauto. rewrite <- H. assumption.
  - apply Q.max_lub; tauto.
Qed.

Lemma composite_shader_formula_witness :
  let maskColor := mkVec4 0 1 0 0 in
  let blurColor := mkVec4 (3 # 10) (9 # 10) 0 0 in
  let blurHalfColor := mkVec4 (1 # 10) (6 # 10) 0 0 in
  let red := mkVec3 1 0 0 in
  let snow := mkVec3 1 (98 # 100) (98 # 100) in
  texel blurColor /\ texel blurHalfColor /\
  w4 (main maskColor blurColor blurHalfColor red snow) == 1 /\
  x4 (main maskColor blurColor blurHalfColor red snow) == 1.
Proof.
  cbn zeta.
  assert (Hb : texel (mkVec4 (3 # 10) (9 # 10) 0 0)) by (repeat split; discriminate).
  assert (Hh : texel (mkVec4 (1 # 10) (6 # 10) 0 0)) by (repeat split; discriminate).
  destruct (composite_shader_formula (mkVec4 0 1 0 0) _ _
              (mkVec3 1 0 0) (mkVec3 1 (98 # 100) (98 # 100)) Hb Hh) as (Hx & _ & _ & Hw & _).
  split; [exact Hb|]. split; [exact Hh|]. split.
  - rewrite Hw. reflexivity.
  - rewrite Hx. reflexivity.
Defined.

End ShaderFacts.

(* ===================================================================== *)
(** ** More on the highlight tracker *)
(* ===================================================================== *)

Section TrackerExtras.
  Import Highlighter.

  (** Bits of the masks after [enable] and [disable]. *)
Lemma testbit_bit (ch i : Z) : Z.testbit (Layers.bit ch) i = Z.eqb i (ch mod 32).
Proof.
  unfold Layers.bit. rewrite Z.shiftl_1_l.
  rewrite Z.pow2_bits_eqb by (apply Z.mod_pos_bound; lia). apply Z.eqb_sym.
Qed.

Lemma testbit_enable (ch m i : Z) :
  Z.testbit (Layers.enable ch m) i = Z.testbit m i || Z.eqb i (ch mod 32).
Proof. unfold Layers.enable. rewrite Z.lor_spec, testbit_bit. reflexivity. Qed.

Lemma testbit_disable (ch m i : Z) :
  Z.testbit (Layers.disable ch m) i = Z.testbit m i && negb (Z.eqb i (ch mod 32)).
Proof. unfold Layers.disable. rewrite Z.ldiff_spec, testbit_bit. reflexivity. Qed.

  (** The store after the layer operations, object by object. *)
Lemma lookup_onLayers f o os x :
  onLayers f o os !! x = relayer f (if Nat.eqb o x then 1 else 0) <$> os !! x.
Proof.
  unfold onLayers. destruct (Nat.eqb_spec o x) as [->|Hne].
  - rewrite lookup_alter_eq. reflexivity.
  - rewrite lookup_alter_ne by exact Hne.
    destruct (os !! x) as [[m r]|]; reflexivity.
Qed.

Lemma relayer_relayer f n k ob : relayer f n (relayer f k ob) = relayer f (k + n) ob.
Proof.
  unfold relayer. cbn. f_equal. rewrite Nat.add_comm. symmetry. apply Nat.iter_add.
Qed.

Lemma lookup_forSiblings f sibs : forall os x,
  forSiblings f sibs os !! x = relayer f (count_occ Nat.eq_dec sibs x) <$> os !! x.
Proof.
  unfold forSiblings.
  induction sibs as [|sb sibs IH]; intros os x; cbn [fold_left count_occ].
  - destruct (os !! x) as [[m r]|]; reflexivity.
  - rewrite IH, lookup_onLayers, <- option_fmap_compose.
    apply option_fmap_ext. intros ob. cbn. rewrite relayer_relayer.
    destruct (Nat.eq_dec sb x) as [->|Hne].
    + rewrite Nat.eqb_refl. reflexivity.
    + apply Nat.eqb_neq in Hne. rewrite Hne. reflexivity.
Qed.

Lemma lookup_applyLayer f o os x :
  applyLayer f o os !! x = relayer f (touches os o x) <$> os !! x.
Proof.
  unfold applyLayer, touches, relatedOf.
  destruct (os !! o) as [ob|] eqn:Eo.
  - destruct (related ob) as [sibs|]; cbn [Js.nullish].
    + rewrite lookup_forSiblings, lookup_onLayers, <- option_fmap_compose.
      apply option_fmap_ext. intros y. cbn. apply relayer_relayer.
    + rewrite lookup_onLayers. cbn. rewrite Nat.add_0_r. reflexivity.
  - rewrite lookup_onLayers. cbn. rewrite Nat.add_0_r. reflexivity.
Qed.

Lemma touches_inGroup s o x :
  (0 <? touches (objects s) o x)%nat = inGroup s o x.
Proof.
  unfold touches, inGroup. cbn [existsb]. rewrite (Nat.eqb_sym x o).
  destruct (Nat.eqb o x); [reflexivity|]. cbn.
  induction (relatedOf (objects s) o) as [|y l IH]; cbn; [reflexivity|].
  destruct (Nat.eq_dec y x) as [->|Hne].
  - rewrite Nat.eqb_refl. reflexivity.
  - rewrite IH. apply Nat.eqb_neq in Hne. rewrite (Nat.eqb_sym x y), Hne. reflexivity.
Qed.

Lemma iter_enable ch n m i :
  Z.testbit (Nat.iter n (Layers.enable ch) m) i
  = Z.testbit m i || ((0 <? n)%nat && Z.eqb i (ch mod 32)).
Proof.
  induction n as [|n IH].
  - cbn. rewrite orb_false_r. reflexivity.
  - rewrite Nat.iter_succ, testbit_enable, IH. clear IH.
    change (0 <? S n)%nat with true.
    destruct (Z.testbit m i), (0 <? n)%nat, (Z.eqb i (ch mod 32)); reflexivity.
Qed.

Lemma iter_disable ch n m i :
  Z.testbit (Nat.iter n (Layers.disable ch) m) i
  = Z.testbit m i && negb ((0 <? n)%nat && Z.eqb i (ch mod 32)).
Proof.
  induction n as [|n IH].
  - cbn. rewrite andb_true_r. reflexivity.
  - rewrite Nat.iter_succ, testbit_disable, IH. clear IH.
    change (0 <? S n)%nat with true.
    destruct (Z.testbit m i), (0 <? n)%nat, (Z.eqb i (ch mod 32)); reflexivity.
Qed.

Lemma layerBit_enableLayer s o ch x i :
  layerBit (enableLayer o ch s) x i
    = (fun b => b || (inGroup s o x && Z.eqb i (ch mod 32))) <$> layerBit s x i.
Proof.
  unfold layerBit, enableLayer. cbn [objects with_objects].
  rewrite lookup_applyLayer, <- !option_fmap_compose.
  apply option_fmap_ext; intros ob; cbn.
  rewrite iter_enable, touches_inGroup. reflexivity.
Qed.

Lemma layerBit_disableLayer s o ch x i :
  layerBit (disableLayer o ch s) x i
    = (fun b => b && negb (inGroup s o x && Z.eqb i (ch mod 32))) <$> layerBit s x i.
Proof.
  unfold layerBit, disableLayer. cbn [objects with_objects].
  rewrite lookup_applyLayer, <- !option_fmap_compose.
  apply option_fmap_ext; intros ob; cbn.
  rewrite iter_disable, touches_inGroup. reflexivity.
Qed.

Lemma inGroup_enableLayer s o' ch o x :
  inGroup (enableLayer o' ch s) o x = inGroup s o x.
Proof. unfold inGroup, enableLayer. cbn. rewrite relatedOf_applyLayer. reflexivity. Qed.

Lemma inGroup_disableLayer s o' ch o x :
  inGroup (disableLayer o' ch s) o x = inGroup s o x.
Proof. unfold inGroup, disableLayer. cbn. rewrite relatedOf_applyLayer. reflexivity. Qed.

Lemma fmap_unchanged (f : bool -> bool) (ob : option bool) :
  (forall b, f b = b) -> f <$> ob = ob.
Proof. intros H. destruct ob as [b|]; cbn; [rewrite H|]; reflexivity. Qed.

Lemma layerBit_enableLayer_other s o ch x i : i <> (ch mod 32)%Z ->
  layerBit (enableLayer o ch s) x i = layerBit s x i.
Proof.
  intros Hi. rewrite layerBit_enableLayer.
  apply fmap_unchanged. intros b. apply Z.eqb_neq in Hi. rewrite Hi.
  rewrite andb_false_r, orb_false_r. reflexivity.
Qed.

Lemma layerBit_disableLayer_other s o ch x i : i <> (ch mod 32)%Z ->
  layerBit (disableLayer o ch s) x i = layerBit s x i.
Proof.
  intros Hi. rewrite layerBit_disableLayer.
  apply fmap_unchanged. intros b. apply Z.eqb_neq in Hi. rewrite Hi.
  rewrite andb_false_r. cbn. apply andb_true_r.
Qed.

Lemma layerBit_enableLayer_outside s o ch x i : inGroup s o x = false ->
  layerBit (enableLayer o ch s) x i = layerBit s x i.
Proof.
  intros Hg. rewrite layerBit_enableLayer.
  apply fmap_unchanged. intros b. rewrite Hg. cbn. apply orb_false_r.
Qed.

Lemma layerBit_disableLayer_outside s o ch x i : inGroup s o x = false ->
  layerBit (disableLayer o ch s) x i = layerBit s x i.
Proof.
  intros Hg. rewrite layerBit_disableLayer.
  apply fmap_unchanged. intros b. rewrite Hg. cbn. apply andb_true_r.
Qed.

(** X2: for any integer channel [ch], [enableLayer o ch] switches on, and
    [disableLayer o ch] switches off, the bit numbered [ch] modulo 32 (the
    shift count of [1 << channel]; channel 32 is layer 0) on [o] and on every
    related sibling of [o]; every other of the 32 bits of every object
    stays, objects outside the group stay, and nobody's [related] list
    changes. *)
Theorem enableLayer_sets_one_bit_on_the_group s o ch x i :
  (0 <= i < 32)%Z ->
  layerBit (enableLayer o ch s) x i
    = (fun b => b || (inGroup s o x && Z.eqb i (ch mod 32))) <$> layerBit s x i /\
  layerBit (disableLayer o ch s) x i
    = (fun b => b && negb (inGroup s o x && Z.eqb i (ch mod 32))) <$> layerBit s x i /\
  relatedOf (objects (enableLayer o ch s)) x = relatedOf (objects s) x /\
  relatedOf (objects (disableLayer o ch s)) x = relatedOf (objects s) x.
Proof.
  intros _. split; [apply layerBit_enableLayer|].
  split; [apply layerBit_disableLayer|].
  unfold enableLayer, disableLayer. cbn. rewrite !relatedOf_applyLayer. split; reflexivity.
Qed.

Lemma keeps_refl s : keeps s s.
Proof. split; reflexivity. Qed.

Lemma keeps_trans s1 s2 s3 : keeps s1 s2 -> keeps s2 s3 -> keeps s1 s3.
Proof.
  intros [A1 B1] [A2 B2]. split; intros.
  - rewrite A2, A1 by assumption. reflexivity.
  - rewrite B2, B1. reflexivity.
Qed.

Lemma keeps_fields s h x : keeps s (mkState (objects s) h x).
Proof. split; reflexivity. Qed.

Lemma keeps_enable_hover s o : keeps s (enableLayer o HOVER_LAYER s).
Proof.
  split; intros.
  - apply layerBit_enableLayer_other; assumption.
  - unfold enableLayer. cbn. apply relatedOf_applyLayer.
Qed.

Lemma keeps_disable_hover s o : keeps s (disableLayer o HOVER_LAYER s).
Proof.
  split; intros.
  - apply layerBit_disableLayer_other; assumption.
  - unfold disableLayer. cbn. apply relatedOf_applyLayer.
Qed.

Lemma keeps_enable_selected s o : keeps s (enableLayer o SELECTED_LAYER s).
Proof.
  split; intros.
  - apply layerBit_enableLayer_other; assumption.
  - unfold enableLayer. cbn. apply relatedOf_applyLayer.
Qed.

Lemma keeps_disable_selected s o : keeps s (disableLayer o SELECTED_LAYER s).
Proof.
  split; intros.
  - apply layerBit_disableLayer_other; assumption.
  - unfold disableLayer. cbn. apply relatedOf_applyLayer.
Qed.

Lemma keeps_setHoverMaterial s o : keeps s (setHoverMaterial o s).
Proof.
  unfold setHoverMaterial.
  destruct (selectedObject s); [destruct (areObjectOrRelatedEqual s o _)|];
    auto using keeps_refl, keeps_enable_hover.
Qed.

Lemma keeps_clearHoverMaterial s o : keeps s (clearHoverMaterial o s).
Proof. apply keeps_disable_hover. Qed.

Lemma keeps_setSelectedMaterial s o : keeps s (setSelectedMaterial o s).
Proof.
  unfold setSelectedMaterial. cbn zeta.
  destruct (hoveredObject _); [destruct (areObjectOrRelatedEqual _ _ _)|];
    eauto using keeps_trans, keeps_enable_selected, keeps_clearHoverMaterial.
Qed.

Lemma keeps_clearSelectedMaterial s o : keeps s (clearSelectedMaterial o s).
Proof.
  unfold clearSelectedMaterial. cbn zeta.
  destruct (hoveredObject _); [destruct (areObjectOrRelatedEqual _ _ _)|];
    eauto using keeps_trans, keeps_disable_selected, keeps_setHoverMaterial.
Qed.

Lemma keeps_handle e s : keeps s (handle e s).
Proof.
  destruct e as [o|o|o|o]; cbn [handle].
  - eapply keeps_trans; [apply (keeps_fields s (Some o) (selectedObject s))|].
    apply keeps_setHoverMaterial.
  - eapply keeps_trans; [apply (keeps_fields s None (selectedObject s))|].
    apply keeps_clearHoverMaterial.
  - destruct (selectedObject s) as [old|] eqn:E.
    + eapply keeps_trans; [apply keeps_clearSelectedMaterial|].
      eapply keeps_trans; [|apply keeps_setSelectedMaterial].
      apply keeps_fields.
    + eapply keeps_trans; [|apply keeps_setSelectedMaterial]. apply keeps_fields.
  - eapply keeps_trans; [apply (keeps_fields s (hoveredObject s) None)|].
    apply keeps_clearSelectedMaterial.
Qed.

Lemma enableLayer_sets_one_bit_on_the_group_witness :
  (0 <= 1 < 32)%Z /\ (0 <= 0 < 32)%Z /\
  layerBit pairedObjects 1%nat 1 = Some false /\
  layerBit (enableLayer 0%nat 1 pairedObjects) 1%nat 1 = Some true /\
  layerBit (enableLayer 0%nat 33 pairedObjects) 1%nat 1 = Some true /\
  layerBit (enableLayer 0%nat 1 pairedObjects) 2%nat 1 = Some false /\
  layerBit pairedObjects 1%nat 0 = Some true /\
  layerBit (disableLayer 0%nat 32 pairedObjects) 1%nat 0 = Some false.
Proof.
  split; [lia|]. split; [lia|]. split; [vm_compute; reflexivity|]. split; [|split; [|split]].
  - refine (eq_trans (proj1 (enableLayer_sets_one_bit_on_the_group
                               pairedObjects 0%nat 1 1%nat 1 _)) _); [lia|].
    vm_compute. reflexivity.
  - refine (eq_trans (proj1 (enableLayer_sets_one_bit_on_the_group
                               pairedObjects 0%nat 33 1%nat 1 _)) _); [lia|].
    vm_compute. reflexivity.
  - refine (eq_trans (proj1 (enableLayer_sets_one_bit_on_the_group
                               pairedObjects 0%nat 1 2%nat 1 _)) _); [lia|].
    vm_compute. reflexivity.
  - split; [vm_compute; reflexivity|].
    refine (eq_trans (proj1 (proj2 (enableLayer_sets_one_bit_on_the_group
                               pairedObjects 0%nat 32 1%nat 0 _))) _); [lia|].
    vm_compute. reflexivity.
Defined.

(** X3: whatever events the tracker handles, in whatever order, it changes
    no layer other than 1 and 2 on any object (layer 0, the default
    visibility, in particular) and no [related] list. *)
Theorem events_touch_only_the_highlight_layers es s x i :
  i <> HOVER_LAYER -> i <> SELECTED_LAYER ->
  layerBit (run es s) x i = layerBit s x i /\
  relatedOf (objects (run es s)) x = relatedOf (objects s) x.
Proof.
  intros H1 H2.
  assert (K : keeps s (run es s)).
  { unfold run. revert s. induction es as [|e es IH]; intros s; cbn.
    - apply keeps_refl.
    - eapply keeps_trans; [apply keeps_handle | apply IH]. }
  destruct K as [A B]. split; [apply A; assumption | apply B].
Qed.

Lemma events_touch_only_the_highlight_layers_witness :
  let es := [object3DPointerEnter 0; object3DSelected 0; object3DSelected 2;
             object3DPointerLeave 0; object3DDeselected 2] in
  (0%Z <> HOVER_LAYER /\ 0%Z <> SELECTED_LAYER) /\
  layerBit (run es pairedObjects) 1%nat 0 = Some true.
Proof.
  cbn zeta. split; [split; discriminate|].
  refine (eq_trans (proj1 (events_touch_only_the_highlight_layers
            [object3DPointerEnter 0; object3DSelected 0; object3DSelected 2;
             object3DPointerLeave 0; object3DDeselected 2]
            pairedObjects 1%nat 0 _ _)) _); [discriminate | discriminate |].
  vm_compute. reflexivity.
Defined.

(** X4: when the hovered object [o] is selected while nothing else is
    selected, [o] and all its related siblings end with layer 1 off and layer
    2 on; deselecting it again gives them layer 1 on and layer 2 off.  Objects
    outside the group keep all their layers through both events. *)
Theorem select_while_hovered_swaps_the_layers s o x :
  hoveredObject s = Some o -> selectedObject s = None ->
  let s1 := handle (object3DSelected o) s in
  let s2 := handle (object3DDeselected o) s1 in
  hoveredObject s2 = Some o /\ selectedObject s1 = Some o /\ selectedObject s2 = None /\
  (inGroup s o x = true ->
     layerBit s1 x HOVER_LAYER = (fun _ => false) <$> layerBit s x HOVER_LAYER /\
     layerBit s1 x SELECTED_LAYER = (fun _ => true) <$> layerBit s x SELECTED_LAYER /\
     layerBit s2 x HOVER_LAYER = (fun _ => true) <$> layerBit s x HOVER_LAYER /\
     layerBit s2 x SELECTED_LAYER = (fun _ => false) <$> layerBit s x SELECTED_LAYER) /\
  (inGroup s o x = false ->
     forall i, layerBit s1 x i = layerBit s x i /\ layerBit s2 x i = layerBit s x i).
Proof.
  intros Hh Hs. cbn zeta.
  assert (Eself : forall t, areObjectOrRelatedEqual t o o = true).
  { intros t. unfold areObjectOrRelatedEqual. rewrite Nat.eqb_refl. reflexivity. }
  assert (E1 : handle (object3DSelected o) s =
               disableLayer o HOVER_LAYER
                 (enableLayer o SELECTED_LAYER (with_selected s (Some o)))).
  { cbn [handle]. rewrite Hs. unfold setSelectedMaterial. cbn zeta.
    cbn [hoveredObject enableLayer with_objects with_selected].
    rewrite Hh, Eself. reflexivity. }
  remember (handle (object3DSelected o) s) as s1 eqn:Es1. clear Es1.
  assert (Hh1 : hoveredObject s1 = Some o) by (rewrite E1; exact Hh).
  assert (E2 : handle (object3DDeselected o) s1 =
               enableLayer o HOVER_LAYER
                 (disableLayer o SELECTED_LAYER (with_selected s1 None))).
  { cbn [handle]. unfold clearSelectedMaterial. cbn zeta.
    cbn [hoveredObject disableLayer with_objects with_selected].
    rewrite Hh1, Eself. unfold setHoverMaterial. reflexivity. }
  rewrite E2.
  split; [exact Hh1|]. split; [rewrite E1; reflexivity|]. split; [reflexivity|].
  assert (G1 : forall y, inGroup (with_selected s (Some o)) o y = inGroup s o y) by reflexivity.
  assert (G2 : forall y, inGroup (with_selected s1 None) o y = inGroup s o y).
  { intros y. unfold inGroup. cbn. rewrite E1. unfold disableLayer, enableLayer. cbn.
    rewrite !relatedOf_applyLayer. reflexivity. }
  assert (L0 : forall i, layerBit (with_selected s (Some o)) x i = layerBit s x i) by reflexivity.
  assert (L1 : forall i, layerBit (with_selected s1 None) x i = layerBit s1 x i) by reflexivity.
  assert (B1 : forall i, layerBit s1 x i =
     (fun b => (b || (inGroup s o x && Z.eqb i SELECTED_LAYER))
               && negb (inGroup s o x && Z.eqb i HOVER_LAYER)) <$> layerBit s x i).
  { intros i. rewrite E1, layerBit_disableLayer, inGroup_enableLayer, G1.
    rewrite layerBit_enableLayer, G1, L0, <- option_fmap_compose.
    reflexivity. }
  assert (B2 : forall i, layerBit
       (enableLayer o HOVER_LAYER (disableLayer o SELECTED_LAYER (with_selected s1 None))) x i =
     (fun b => (b && negb (inGroup s o x && Z.eqb i SELECTED_LAYER))
               || (inGroup s o x && Z.eqb i HOVER_LAYER)) <$> layerBit s1 x i).
  { intros i. rewrite layerBit_enableLayer, inGroup_disableLayer, G2.
    rewrite layerBit_disableLayer, G2, L1, <- option_fmap_compose.
    reflexivity. }
  split.
  - intros Hg. rewrite !B2, !B1, <- !option_fmap_compose, Hg.
    repeat split; apply option_fmap_ext; intros b; cbn; destruct b; reflexivity.
  - intros Hg i. rewrite B2, B1, <- option_fmap_compose, Hg.
    split; apply fmap_unchanged; intros b; cbn; destruct b; reflexivity.
Qed.

Lemma select_while_hovered_swaps_the_layers_witness :
  let s := handle (object3DPointerEnter 0) pairedObjects in
  let s1 := handle (object3DSelected 0) s in
  hoveredObject s = Some 0%nat /\ selectedObject s = None /\ inGroup s 0%nat 1%nat = true /\
  layerBit s 1%nat HOVER_LAYER = Some true /\
  layerBit s1 1%nat HOVER_LAYER = Some false /\
  layerBit s1 1%nat SELECTED_LAYER = Some true.
Proof.
  cbn zeta.
  assert (Hh : hoveredObject (handle (object3DPointerEnter 0) pairedObjects) = Some 0%nat)
    by (vm_compute; reflexivity).
  assert (Hs : selectedObject (handle (object3DPointerEnter 0) pairedObjects) = None)
    by (vm_compute; reflexivity).
  assert (Hg : inGroup (handle (object3DPointerEnter 0) pairedObjects) 0%nat 1%nat = true)
    by (vm_compute; reflexivity).
  split; [exact Hh|]. split; [exact Hs|]. split; [exact Hg|].
  split; [vm_compute; reflexivity|].
  destruct (select_while_hovered_swaps_the_layers
              (handle (object3DPointerEnter 0) pairedObjects) 0%nat 1%nat Hh Hs)
    as (_ & _ & _ & Hin & _).
  destruct (Hin Hg) as (H1 & H2 & _).
  split; [refine (eq_trans H1 _) | refine (eq_trans H2 _)]; vm_compute; reflexivity.
Defined.

(** X1: the overlap test [areObjectOrRelatedEqual] is symmetric and
    reflexive, and it is not transitive: an object related to two others
    overlaps both although these two do not overlap each other. *)
Theorem overlap_is_symmetric_not_transitive :
  (forall s a b, areObjectOrRelatedEqual s a b = areObjectOrRelatedEqual s b a) /\
  (forall s a, areObjectOrRelatedEqual s a a = true) /\
  ~ (forall s a b c, areObjectOrRelatedEqual s a b = true ->
                     areObjectOrRelatedEqual s b c = true ->
                     areObjectOrRelatedEqual s a c = true).
Proof.
  split; [exact areObjectOrRelatedEqual_sym|]. split.
  - intros s a. unfold areObjectOrRelatedEqual. rewrite Nat.eqb_refl. reflexivity.
  - intros H.
    specialize (H (fresh [(0%nat, None); (1%nat, Some [0%nat; 2%nat]); (2%nat, None)])
                  0%nat 1%nat 2%nat eq_refl eq_refl).
    vm_compute in H. discriminate H.
Qed.
End TrackerExtras.

(* ===================================================================== *)
(** ** More on frames, sizes and options *)
(* ===================================================================== *)

Section FrameExtras.
  Import OutlinePass.
  Local Open Scope Q_scope.



(** X6: when something is highlighted, a frame sends the renderer exactly
    this: the mask target is cleared and the scene drawn into it twice (hover
    material on layer 1, selected material on layer 2), each of the four blur
    targets is cleared and drawn once, the composite quad is drawn into the
    read buffer, and the copy to the screen follows when [renderToScreen] is
    set.  The renderer is left bound to the read buffer, or to the screen
    after the copy, and the stencil test is switched on when [maskActive]. *)
Theorem active_render_draw_sequence hl rb dt ma p g :
  shouldRenderOutline hl = true ->
  let g' := snd (render hl rb dt ma p g) in
  calls g' = calls g ++ outlineCalls rb
               ++ (if renderToScreen p then [RenderQuad None (Some MaterialCopy)] else []) /\
  renderTarget g' = (if renderToScreen p then None else Some rb) /\
  stencilTest g' = (if ma then true else stencilTest g).
Proof.
  intros Hact. frame_cases hl p; destruct ma; try discriminate Hact;
    cbn; rewrite <- ?app_assoc; repeat split; reflexivity.
Qed.

Lemma active_render_draw_sequence_witness :
  shouldRenderOutline Scenario.hoveredOnly = true /\
  length (calls (snd (render Scenario.hoveredOnly Scenario.readBuffer 1 false
                             Scenario.pass800 Scenario.gfx0))) = 12%nat.
Proof.
  split; [reflexivity|].
  exact (f_equal (@length DrawCall)
           (proj1 (active_render_draw_sequence Scenario.hoveredOnly Scenario.readBuffer
                     1 false Scenario.pass800 Scenario.gfx0 eq_refl))).
Defined.

Lemma render_configuration hl rb dt ma p g :
  let p' := fst (render hl rb dt ma p g) in
  targets p' = targets p /\
  hoverTexture p' = hoverTexture p /\ selectedTexture p' = selectedTexture p /\
  textures p' = textures p /\
  u_hoverTexture (outlineMaterial p') = u_hoverTexture (outlineMaterial p) /\
  u_selectedTexture (outlineMaterial p') = u_selectedTexture (outlineMaterial p) /\
  u_tileCount (outlineMaterial p') = u_tileCount (outlineMaterial p) /\
  texSize (blurMaterial p') = texSize (blurMaterial p) /\
  texSize (blurHalfMaterial p') = texSize (blurHalfMaterial p) /\
  kernelRadius (blurMaterial p') = kernelRadius (blurMaterial p) /\
  kernelRadius (blurHalfMaterial p') = kernelRadius (blurHalfMaterial p) /\
  renderToScreen p' = renderToScreen p.
Proof. frame_cases hl p; repeat split; reflexivity. Qed.

(** X7: a frame changes nothing of the configuration: the sizes of the
    targets, the channel fields and their uniforms, the texture objects, the
    tile count uniform, the texel sizes and kernel radii, and
    [renderToScreen] are after [render] what they were before. *)
Theorem render_leaves_configuration hl rb dt ma p g :
  let p' := fst (render hl rb dt ma p g) in
  targets p' = targets p /\
  hoverTexture p' = hoverTexture p /\ selectedTexture p' = selectedTexture p /\
  textures p' = textures p /\
  u_hoverTexture (outlineMaterial p') = u_hoverTexture (outlineMaterial p) /\
  u_selectedTexture (outlineMaterial p') = u_selectedTexture (outlineMaterial p) /\
  u_tileCount (outlineMaterial p') = u_tileCount (outlineMaterial p) /\
  texSize (blurMaterial p') = texSize (blurMaterial p) /\
  texSize (blurHalfMaterial p') = texSize (blurHalfMaterial p) /\
  kernelRadius (blurMaterial p') = kernelRadius (blurMaterial p) /\
  kernelRadius (blurHalfMaterial p') = kernelRadius (blurHalfMaterial p) /\
  renderToScreen p' = renderToScreen p.
Proof. exact (render_configuration hl rb dt ma p g). Qed.

  (** Rounding the half of an integer moves it by at most one half. *)
Lemma round_half_of_integer (n : Z) :
  inject_Z n <= 2 * Js.Math_round (inject_Z n / 2) /\
  2 * Js.Math_round (inject_Z n / 2) <= inject_Z n + 1.
Proof.
  unfold Js.Math_round.
  set (b := Qfloor (inject_Z n / 2 + (1 # 2))).
  assert (Hlo := Qfloor_le (inject_Z n / 2 + (1 # 2))).
  assert (Hhi := Qlt_floor (inject_Z n / 2 + (1 # 2))).
  fold b in Hlo, Hhi. rewrite inject_Z_plus in Hhi. change (inject_Z 1) with 1 in Hhi.
  assert (Hd : inject_Z n / 2 == inject_Z n * (1 # 2)) by field.
  rewrite Hd in Hlo, Hhi.
  split; [|lra].
  assert (Hz : (n - 1 < 2 * b)%Z).
  { rewrite Zlt_Qlt. unfold Z.sub. rewrite inject_Z_plus, inject_Z_mult, inject_Z_opp.
    change (inject_Z 2) with 2. change (inject_Z 1) with 1. lra. }
  assert (Hz' : (n <= 2 * b)%Z) by lia.
  rewrite Zle_Qle, inject_Z_mult in Hz'. change (inject_Z 2) with 2 in Hz'. exact Hz'.
Qed.

  (** Halving and rounding twice gives the rounded quarter or one more. *)
Lemma round_twice_near_quarter w :
  let half := Js.Math_round (Js.Math_round (w / 2) / 2) in
  Js.Math_round (w / 4) <= half /\ half <= Js.Math_round (w / 4) + 1.
Proof.
  cbn zeta. unfold Js.Math_round.
  destruct (round_half_of_integer (Qfloor (w / 2 + (1 # 2)))) as [Hlo Hhi].
  unfold Js.Math_round in Hlo, Hhi.
  assert (Ha1 := Qfloor_le (w / 2 + (1 # 2))).
  assert (Ha2 := Qlt_floor (w / 2 + (1 # 2))).
  assert (Hc1 := Qfloor_le (w / 4 + (1 # 2))).
  assert (Hc2 := Qlt_floor (w / 4 + (1 # 2))).
  set (a := Qfloor (w / 2 + (1 # 2))) in *.
  set (b := Qfloor (inject_Z a / 2 + (1 # 2))) in *.
  set (c := Qfloor (w / 4 + (1 # 2))) in *.
  rewrite inject_Z_plus in Ha2, Hc2. change (inject_Z 1) with 1 in Ha2, Hc2.
  assert (Hd2 : w / 2 == w * (1 # 2)) by field.
  assert (Hd4 : w / 4 == w * (1 # 4)) by field.
  rewrite Hd2 in Ha1, Ha2. rewrite Hd4 in Hc1, Hc2.
  assert (Hcb : (c <= b)%Z).
  { assert (H : (c < b + 1)%Z).
    { rewrite Zlt_Qlt, inject_Z_plus. change (inject_Z 1) with 1. lra. }
    lia. }
  assert (Hbc : (b <= c + 1)%Z).
  { assert (H : (b < c + 2)%Z).
    { rewrite Zlt_Qlt, inject_Z_plus. change (inject_Z 2) with 2. lra. }
    lia. }
  split.
  - rewrite <- Zle_Qle. exact Hcb.
  - change 1 with (inject_Z 1). rewrite <- inject_Z_plus, <- Zle_Qle. exact Hbc.
Qed.

(** X8: after [setSize w h], whatever [w] and [h], the horizontal
    half-resolution blur target is [round (w/4)] or [round (w/4) + 1] wide and
    [round (h/4)] or [round (h/4) + 1] high. *)
Theorem half_size_within_one_of_quarter w h p :
  let t := blurHorizontalHalfRenderTarget (targets (setSize w h p)) in
  Js.Math_round (w / 4) <= width t <= Js.Math_round (w / 4) + 1 /\
  Js.Math_round (h / 4) <= height t <= Js.Math_round (h / 4) + 1.
Proof.
  cbn. split; [apply (round_twice_near_quarter w) | apply (round_twice_near_quarter h)].
Qed.

(** X9: [setOptions] is idempotent: applying the same options a second time
    changes nothing. *)
Theorem setOptions_twice o p : setOptions o (setOptions o p) = setOptions o p.
Proof.
  destruct p as [s t bm bhm om ht st txs fq td rts].
  destruct s as [et eg su tc an iv el].
  destruct o as [[oet|] [oeg|] [osu|] [otc|] [[|]|] [oiv|]];
    unfold setOptions, applyOptions; cbn; destruct an; cbn; reflexivity.
Qed.

(** X10: a pass constructed without [edgeGlow] has [edgeGlow] equal to its
    [edgeThickness] (1 unless given), not the field's initial value 2, and
    the half-resolution blur material is built with that radius. *)
Theorem constructor_glow_is_the_thickness res o :
  opt_edgeGlow o = None ->
  let p := constructor res o in
  edgeGlow (settings p) = Js.nullish (opt_edgeThickness o) 1 /\
  edgeGlow (settings p) = edgeThickness (settings p) /\
  kernelRadius (blurHalfMaterial p) = edgeThickness (settings p) /\
  maxRadius (blurHalfMaterial p) = edgeThickness (settings p).
Proof.
  intros H. destruct o as [oet oeg osu otc oan oiv]. cbn in H. subst oeg.
  cbn. repeat split; reflexivity.
Qed.

Lemma constructor_glow_is_the_thickness_witness :
  opt_edgeGlow noOptions = None /\
  edgeGlow defaultSettings = 2 /\
  edgeGlow (settings (constructor (mkVector2 800 600) noOptions)) = 1.
Proof.
  split; [reflexivity|]. split; [reflexivity|].
  exact (proj1 (constructor_glow_is_the_thickness (mkVector2 800 600) noOptions eq_refl)).
Defined.
End FrameExtras.

(* ===================================================================== *)
(** ** Invariants of the channel bindings *)
(* ===================================================================== *)

Section ChannelExtras.
  Import OutlinePass.

Ltac channel_cases :=
  unfold channelOk, bound, setTexture, setTextureRenderTarget, setTextureTexture,
         createAndSetTexture, assignImage, sameTarget, getTextureDimensions in *;
  repeat case_match; cbn in *; simplify_eq.

Ltac channel_finish Hl :=
  cbn; split;
  [ repeat match goal with
           | H : hoverTexture _ = _ |- _ => rewrite H
           | H : selectedTexture _ = _ |- _ => rewrite H
           end; cbn; congruence
  | let t' := fresh "t" in let Ht' := fresh "Ht" in
    intros t' Ht'; cbn in Ht' |- *; rewrite ?length_alter, ?length_app; cbn;
    first [ (assert (Hx := Hl t' ltac:(congruence)); lia)
          | (simplify_eq; lia) ] ].

Lemma channelOk_setTexture k key src p :
  channelOk k p -> channelOk k (setTexture key src p).
Proof.
  intros [Hb Hl]. destruct k, key; channel_cases; channel_finish Hl.
Qed.

Lemma channelOk_setColors k c p : channelOk k p -> channelOk k (setColors c p).
Proof.
  intros H. unfold setColors.
  destruct (hover c), (selected c); repeat apply channelOk_setTexture; exact H.
Qed.

Lemma channelOk_setOptions k o p : channelOk k p -> channelOk k (setOptions o p).
Proof.
  intros [Hb Hl]. unfold channelOk, bound, setOptions in *. cbn zeta.
  destruct (negb _); destruct k; cbn; split; assumption.
Qed.

Lemma channelOk_setSize k w h p : channelOk k p -> channelOk k (setSize w h p).
Proof. intros [Hb Hl]. destruct k; split; assumption. Qed.

Lemma channelOk_setOutputMode k m p : channelOk k p -> channelOk k (setOutputMode m p).
Proof. intros [Hb Hl]. destruct k; split; try reflexivity; assumption. Qed.

Lemma channelOk_updateTexture k key p : channelOk k p -> channelOk k (updateTexture key p).
Proof.
  intros [Hb Hl]. unfold channelOk, bound, updateTexture in *.
  destruct (getKey key p); destruct k; cbn; rewrite ?length_alter; split; assumption.
Qed.

Lemma channelOk_render k hl rb dt ma p g :
  channelOk k p -> channelOk k (fst (render hl rb dt ma p g)).
Proof.
  intros [Hb Hl].
  destruct (render_configuration hl rb dt ma p g) as (_ & Hh & Hs & Ht & Huh & Hus & _).
  unfold channelOk, bound in *. destruct k; cbn in *;
    rewrite ?Hh, ?Hs, ?Ht, ?Huh, ?Hus; split; assumption.
Qed.

Lemma channelsOk_constructor res o : channelsOk (constructor res o).
Proof.
  split; (split; [reflexivity | intros t Ht; cbn in Ht; simplify_eq; cbn; lia]).
Qed.

Lemma channelsOk_runOp op pg : channelsOk (fst pg) -> channelsOk (fst (runOp op pg)).
Proof.
  intros [Hh Hs]. destruct op; cbn [runOp fst]; split;
    auto using channelOk_setOptions, channelOk_setSize, channelOk_setColors,
               channelOk_updateTexture, channelOk_setOutputMode, channelOk_render.
Qed.

Lemma stillUniform_setTexture key src p : stillUniform p -> stillUniform (setTexture key src p).
Proof.
  intros H. unfold stillUniform in *.
  destruct key; channel_cases; cbn; exact H.
Qed.

Lemma stillUniform_setColors c p : stillUniform p -> stillUniform (setColors c p).
Proof.
  intros H. unfold setColors.
  destruct (hover c), (selected c); repeat apply stillUniform_setTexture; exact H.
Qed.

Lemma stillUniform_updateTexture key p : stillUniform p -> stillUniform (updateTexture key p).
Proof. intros H. unfold updateTexture. destruct (getKey key p); exact H. Qed.

Lemma stillUniform_runOp op pg : stillUniform (fst pg) -> stillUniform (fst (runOp op pg)).
Proof.
  intros H. destruct op; cbn [runOp fst];
    auto using stillUniform_setOptions, stillUniform_setSize, stillUniform_setColors,
               stillUniform_updateTexture, stillUniform_setOutputMode, stillUniform_render.
Qed.

(** X11: on a constructed pass, after any sequence of [setOptions],
    [setSize], [setColors], [updateTexture], [setOutputMode] and [render]
    calls, each channel's uniform refers to the texture its field holds (the
    render target's texture, or the [Texture] itself), and a [Texture] held
    by a channel exists in the store. *)
Theorem channels_follow_their_fields res o g ops :
  let p := fst (runOps ops (constructor res o, g)) in
  u_hoverTexture (outlineMaterial p) = textureOf (hoverTexture p) /\
  u_selectedTexture (outlineMaterial p) = textureOf (selectedTexture p) /\
  (forall t, hoverTexture p = IsTexture t -> is_Some (textures p !! t)) /\
  (forall t, selectedTexture p = IsTexture t -> is_Some (textures p !! t)).
Proof.
  cbn zeta.
  assert (H : channelsOk (fst (runOps ops (constructor res o, g)))).
  { unfold runOps.
    assert (H0 : channelsOk (fst (constructor res o, g))) by apply channelsOk_constructor.
    revert H0. generalize (constructor res o, g).
    induction ops as [|op ops IH]; intros pg H0; cbn; [exact H0|].
    apply IH, channelsOk_runOp, H0. }
  destruct H as [[Hbh Hlh] [Hbs Hls]].
  repeat split; try assumption; intros t Ht; apply lookup_lt_is_Some; auto.
Qed.

(** X12: on a constructed pass, after any sequence of calls of the public
    interface, if [animateOutline] is off then the [startU] uniform is the
    configured [startU]. *)
Theorem startU_uniform_is_static_while_still res o g ops :
  let p := fst (runOps ops (constructor res o, g)) in
  animateOutline (settings p) = false ->
  u_startU (outlineMaterial p) = startU (settings p).
Proof.
  cbn zeta. unfold runOps.
  assert (H0 : stillUniform (fst (constructor res o, g))) by apply stillUniform_constructor.
  revert H0. generalize (constructor res o, g).
  induction ops as [|op ops IH]; intros pg H0; cbn; [exact H0|].
  apply IH, stillUniform_runOp, H0.
Qed.

Lemma startU_uniform_is_static_while_still_witness :
  let ops := [OpSetColors (mkColors (Some (FromImage Scenario.canvasA)) None);
              OpRender Scenario.hoveredOnly Scenario.readBuffer 1 false;
              OpSetOptions (mkOptions None None (Some (1 # 4)%Q) None (Some false) None);
              OpRender Scenario.hoveredOnly Scenario.readBuffer 1 false] in
  let p := fst (runOps ops (constructor (mkVector2 800 600) noOptions, Scenario.gfx0)) in
  animateOutline (settings p) = false /\
  u_startU (outlineMaterial p) = (1 # 4)%Q.
Proof.
  cbn zeta.
  assert (Ha : animateOutline (settings (fst (runOps
             [OpSetColors (mkColors (Some (FromImage Scenario.canvasA)) None);
              OpRender Scenario.hoveredOnly Scenario.readBuffer 1 false;
              OpSetOptions (mkOptions None None (Some (1 # 4)%Q) None (Some false) None);
              OpRender Scenario.hoveredOnly Scenario.readBuffer 1 false]
             (constructor (mkVector2 800 600) noOptions, Scenario.gfx0)))) = false)
    by (vm_compute; reflexivity).
  split; [exact Ha|].
  refine (eq_trans (startU_uniform_is_static_while_still (mkVector2 800 600) noOptions
                      Scenario.gfx0 _ Ha) _).
  vm_compute. reflexivity.
Defined.
End ChannelExtras.

(* ===================================================================== *)
(** ** More on channel textures *)
(* ===================================================================== *)

Section TextureExtras.
  Import OutlinePass.

Lemma RtRef_eqb_refl r : RtRef_eqb r r = true.
Proof. destruct r; cbn; try reflexivity. apply Nat.eqb_refl. Qed.

Ltac texture_cases :=
  unfold channelOk, bound, boundImage, setColors, setTexture, setTextureRenderTarget,
         setTextureTexture, createAndSetTexture, assignImage, sameTarget,
         getTextureDimensions in *;
  repeat case_match; cbn in *; simplify_eq.

(** X13: when a channel holds a [Texture] [tx] of the store, number [t],
    and its uniform refers to it, giving the channel an image leaves the
    uniform on a texture whose image is that image.  If [tx] had no image, or
    an image of the same width and height, the channel keeps texture [t], the
    store keeps its length and [t] now carries the image with [needsUpdate]
    set; otherwise the channel moves to a new texture appended to the store,
    which carries the image with repeat wrapping and [needsUpdate] set, while
    texture [t] stays as it was. *)
Theorem image_update_binds_the_image key im p t tx :
  getKey key p = IsTexture t -> textures p !! t = Some tx -> bound key p ->
  let p' := setTexture key (FromImage im) p in
  let n := length (textures p) in
  boundImage key p' = Some im /\
  (fits tx im ->
     getKey key p' = IsTexture t /\ length (textures p') = n /\
     textures p' !! t = Some (mkTexture (wrapS tx) (Some im) true)) /\
  (~ fits tx im ->
     getKey key p' = IsTexture n /\ length (textures p') = S n /\
     textures p' !! t = Some tx /\
     textures p' !! n = Some (mkTexture RepeatWrapping (Some im) true)).
Proof.
  intros Hk Htx Hb. cbn zeta.
  assert (Hl : (t < length (textures p))%nat) by (apply lookup_lt_is_Some_1; eauto).
  assert (Kept :
    let p' := assignImage t im p in
    boundImage key p' = Some im /\ getKey key p' = IsTexture t /\
    length (textures p') = length (textures p) /\
    textures p' !! t = Some (mkTexture (wrapS tx) (Some im) true)).
  { unfold boundImage, assignImage, bound in *.
    destruct key; cbn in *; rewrite Hb, Hk; cbn;
      rewrite list_lookup_alter_eq, Htx, length_alter; cbn; auto. }
  assert (Moved :
    let p' := assignImage (fst (createAndSetTexture key p)) im
                (snd (createAndSetTexture key p)) in
    boundImage key p' = Some im /\ getKey key p' = IsTexture (length (textures p)) /\
    length (textures p') = S (length (textures p)) /\
    textures p' !! t = Some tx /\
    textures p' !! length (textures p) = Some (mkTexture RepeatWrapping (Some im) true)).
  { unfold boundImage, createAndSetTexture, assignImage.
    destruct key; cbn;
      rewrite list_lookup_alter_eq, length_alter, length_app, lookup_app_r, Nat.sub_diag by lia;
      rewrite list_lookup_alter_ne, lookup_app_l, Htx by lia; cbn;
      repeat split; auto; lia. }
  cbn zeta in Kept, Moved.
  unfold setTexture, setTextureTexture. rewrite Hk, Htx.
  unfold fits, sameSize. destruct tx as [ws [old|] nu]; cbn [image wrapS] in *.
  - destruct (getTextureDimensions (Some old)) as [ow oh].
    destruct (getTextureDimensions (Some im)) as [nw nh]. cbn [fst snd].
    destruct (Qeq_bool ow nw) eqn:Ew;
      [apply Qeq_bool_iff in Ew | apply Qeq_bool_neq in Ew];
      (destruct (Qeq_bool oh nh) eqn:Eh;
       [apply Qeq_bool_iff in Eh | apply Qeq_bool_neq in Eh]);
      cbn [negb orb].
    + split; [apply Kept|]. split; [intros _; apply Kept|].
      intros N. exfalso. apply N. split; assumption.
    + split; [apply Moved|]. split; [intros [_ F]; contradiction|]. intros _. apply Moved.
    + split; [apply Moved|]. split; [intros [F _]; contradiction|]. intros _. apply Moved.
    + split; [apply Moved|]. split; [intros [F _]; contradiction|]. intros _. apply Moved.
  - split; [apply Kept|]. split; [intros _; apply Kept|].
    intros N. exfalso. apply N. exact I.
Qed.

Lemma image_update_binds_the_image_witness :
  let p := setColors (mkColors (Some (FromImage Scenario.canvasA)) None) Scenario.pass800 in
  let tx := mkTexture RepeatWrapping (Some Scenario.canvasA) true in
  getKey hoverTextureKey p = IsTexture 0 /\
  textures p !! 0%nat = Some tx /\
  bound hoverTextureKey p /\
  fits tx Scenario.canvasB /\
  ~ fits tx Scenario.canvasWide /\
  getKey hoverTextureKey (setTexture hoverTextureKey (FromImage Scenario.canvasB) p)
    = IsTexture 0 /\
  getKey hoverTextureKey (setTexture hoverTextureKey (FromImage Scenario.canvasWide) p)
    = IsTexture (length (textures p)) /\
  boundImage hoverTextureKey (setTexture hoverTextureKey (FromImage Scenario.canvasWide) p)
    = Some Scenario.canvasWide.
Proof.
  cbn zeta.
  assert (F : fits (mkTexture RepeatWrapping (Some Scenario.canvasA) true) Scenario.canvasB)
    by (split; reflexivity).
  assert (N : ~ fits (mkTexture RepeatWrapping (Some Scenario.canvasA) true)
                Scenario.canvasWide)
    by (intros [W _]; vm_compute in W; discriminate).
  split; [reflexivity|]. split; [reflexivity|]. split; [reflexivity|].
  split; [exact F|]. split; [exact N|].
  pose proof (image_update_binds_the_image hoverTextureKey Scenario.canvasB
                (setColors (mkColors (Some (FromImage Scenario.canvasA)) None)
                           Scenario.pass800)
                0 (mkTexture RepeatWrapping (Some Scenario.canvasA) true)
                eq_refl eq_refl eq_refl) as HB.
  pose proof (image_update_binds_the_image hoverTextureKey Scenario.canvasWide
                (setColors (mkColors (Some (FromImage Scenario.canvasA)) None)
                           Scenario.pass800)
                0 (mkTexture RepeatWrapping (Some Scenario.canvasA) true)
                eq_refl eq_refl eq_refl) as HW.
  cbn zeta in HB, HW.
  split; [exact (proj1 (proj1 (proj2 HB) F))|].
  split; [exact (proj1 (proj2 (proj2 HW) N))|].
  exact (proj1 HW).
Defined.

Lemma setTextureRenderTarget_same key r p :
  getKey key p = IsRenderTarget r -> setTextureRenderTarget key r p = p.
Proof.
  intros H. unfold setTextureRenderTarget, sameTarget. rewrite H, RtRef_eqb_refl.
  reflexivity.
Qed.

Lemma getKey_setTextureRenderTarget key r p :
  getKey key (setTextureRenderTarget key r p) = IsRenderTarget r.
Proof.
  unfold setTextureRenderTarget, sameTarget.
  destruct (getKey key p) as [t|r'] eqn:E.
  - destruct key; reflexivity.
  - destruct (RtRef_eqb r' r) eqn:Er.
    + apply RtRef_eqb_eq in Er. subst r'. exact E.
    + destruct key; reflexivity.
Qed.

Lemma getKey_setTextureRenderTarget_other k key r p :
  k <> key -> getKey k (setTextureRenderTarget key r p) = getKey k p.
Proof.
  intros Hne. unfold setTextureRenderTarget.
  destruct (sameTarget (getKey key p) r); [reflexivity|].
  destruct k, key; try congruence; reflexivity.
Qed.

(** X14: [setColors] with render targets is idempotent, and afterwards each
    channel that was given a render target holds it. *)
Theorem render_target_colors_are_idempotent (h s : option RtRef) p :
  let c := mkColors (FromRenderTarget <$> h) (FromRenderTarget <$> s) in
  setColors c (setColors c p) = setColors c p /\
  (forall r, h = Some r -> hoverTexture (setColors c p) = IsRenderTarget r) /\
  (forall r, s = Some r -> selectedTexture (setColors c p) = IsRenderTarget r).
Proof.
  cbn zeta. destruct h as [rh|], s as [rs|]; unfold setColors; cbn.
  - split; [|split; intros r E; simplify_eq].
    + rewrite (setTextureRenderTarget_same hoverTextureKey rh).
      * apply setTextureRenderTarget_same, getKey_setTextureRenderTarget.
      * rewrite getKey_setTextureRenderTarget_other by discriminate.
        apply getKey_setTextureRenderTarget.
    + change (getKey hoverTextureKey
                (setTextureRenderTarget selectedTextureKey rs
                   (setTextureRenderTarget hoverTextureKey r p)) = IsRenderTarget r).
      rewrite getKey_setTextureRenderTarget_other by discriminate.
      apply getKey_setTextureRenderTarget.
    + apply (getKey_setTextureRenderTarget selectedTextureKey).
  - split; [|split; intros r E; simplify_eq].
    + apply setTextureRenderTarget_same, getKey_setTextureRenderTarget.
    + apply (getKey_setTextureRenderTarget hoverTextureKey).
  - split; [|split; intros r E; simplify_eq].
    + apply setTextureRenderTarget_same, getKey_setTextureRenderTarget.
    + apply (getKey_setTextureRenderTarget selectedTextureKey).
  - repeat split; intros; discriminate.
Qed.

(** X15: the pass as [EffectComposerHandler] sets it up (constructed, then
    given a hover image and a selected image by two [setColors] calls) has
    both images bound, on the two textures the constructor created, with
    [needsUpdate] set. *)
Theorem composer_pass_has_both_images size a b :
  let p := composerOutlinePass size a b in
  boundImage hoverTextureKey p = Some a /\
  boundImage selectedTextureKey p = Some b /\
  hoverTexture p = IsTexture 0 /\ selectedTexture p = IsTexture 1 /\
  textures p = [mkTexture RepeatWrapping (Some a) true; mkTexture RepeatWrapping (Some b) true].
Proof. cbn. repeat split; reflexivity. Qed.
End TextureExtras.

(* ===================================================================== *)
(** ** The environment map cache *)
(* ===================================================================== *)

Section EnvironmentExtras.
  Import EnvironmentMapLoader.

(** X16: [loadEnvironment] is memoised: asking for the same file again
    returns the same result and changes nothing; a call starts at most one
    load and leaves the cache entries of all other files alone. *)
Theorem loadEnvironment_is_memoised file s :
  let r1 := fst (loadEnvironment file s) in
  let s1 := snd (loadEnvironment file s) in
  loadEnvironment file s1 = (r1, s1) /\
  (forall g, g <> file -> environments s1 !! g = environments s !! g) /\
  (length (started s1) <= length (started s) + 1)%nat.
Proof.
  cbn zeta.
  destruct (loadEnvironment file s) as [r1 s1] eqn:L. cbn [fst snd].
  unfold loadEnvironment in L.
  destruct (environments s !! file) as [pr|] eqn:E.
  - simplify_eq. unfold loadEnvironment. rewrite E.
    split; [reflexivity|]. split; [reflexivity|lia].
  - destruct (inherited file) eqn:Ei; simplify_eq.
    + unfold loadEnvironment. rewrite E, Ei.
      split; [reflexivity|]. split; [reflexivity|lia].
    + unfold loadEnvironment. cbn [environments started].
      rewrite lookup_insert_eq. split; [reflexivity|]. split.
      * intros g Hg. apply lookup_insert_ne. congruence.
      * rewrite length_app. cbn. lia.
Qed.

Lemma consistent_empty : consistent empty.
Proof.
  intros f i. cbn. rewrite lookup_empty. split; intros H; [discriminate|].
  destruct i; discriminate H.
Qed.

Lemma consistent_loadEnvironment file s :
  consistent s -> consistent (snd (loadEnvironment file s)).
Proof.
  intros Hc. unfold loadEnvironment.
  destruct (environments s !! file) as [pr|] eqn:E; [exact Hc|].
  destruct (inherited file); [exact Hc|]. cbn.
  intros f i. cbn. rewrite lookup_snoc_Some. split.
  - destruct (decide (file = f)) as [->|Hne].
    + rewrite lookup_insert_eq. intros H. simplify_eq. right. auto.
    + rewrite lookup_insert_ne by exact Hne. intros H. left.
      apply Hc in H. split; [eapply lookup_lt_Some; eauto | exact H].
  - intros [[Hi Hl] | [-> ->]].
    + destruct (decide (file = f)) as [->|Hne].
      * apply Hc in Hl. congruence.
      * rewrite lookup_insert_ne by exact Hne. apply Hc, Hl.
    + apply lookup_insert_eq.
Qed.

Lemma consistent_loadAll files : forall s, consistent s -> consistent (loadAll files s).
Proof.
  unfold loadAll. induction files as [|f files IH]; intros s Hc; cbn; [exact Hc|].
  apply IH, consistent_loadEnvironment, Hc.
Qed.

Lemma cached_stays file g s i :
  environments s !! g = Some i -> environments (snd (loadEnvironment file s)) !! g = Some i.
Proof.
  intros H. unfold loadEnvironment.
  destruct (environments s !! file) as [pr|] eqn:E; [exact H|].
  destruct (inherited file); [exact H|]. cbn.
  rewrite lookup_insert_ne; [exact H | congruence].
Qed.

Lemma cached_stays_loadAll files : forall g s i,
  environments s !! g = Some i -> environments (loadAll files s) !! g = Some i.
Proof.
  unfold loadAll. induction files as [|f files IH]; intros g s i H; cbn; [exact H|].
  apply IH, cached_stays, H.
Qed.

Lemma cached_after_load file s :
  inherited file = false -> is_Some (environments (snd (loadEnvironment file s)) !! file).
Proof.
  intros Hi. unfold loadEnvironment.
  destruct (environments s !! file) as [pr|] eqn:E; [cbn; rewrite E; eauto|].
  rewrite Hi. cbn. rewrite lookup_insert_eq. eauto.
Qed.

Lemma started_from_requests files : forall s f,
  f ∈ started (loadAll files s) -> f ∈ started s \/ f ∈ files.
Proof.
  unfold loadAll. induction files as [|x files IH]; intros s f H; cbn in *; [auto|].
  apply IH in H as [H|H]; [|right; right; exact H].
  unfold loadEnvironment in H.
  destruct (environments s !! x); [auto|]. destruct (inherited x); [auto|]. cbn in H.
  apply elem_of_app in H as [H|H]; [auto|].
  apply list_elem_of_singleton in H. subst. right. left.
Qed.

(** X17: starting from an empty cache, after any list of requests no file
    has been loaded twice, only requested files have been loaded, and every
    requested file whose name is not a member of [Object.prototype] is cached
    under the promise of its one load. *)
Theorem every_file_is_loaded_once files :
  let s := loadAll files empty in
  NoDup (started s) /\
  (forall f, f ∈ started s -> f ∈ files) /\
  (forall f, f ∈ files -> inherited f = false ->
     exists i, environments s !! f = Some i /\ started s !! i = Some f).
Proof.
  cbn zeta.
  assert (Hc : consistent (loadAll files empty))
    by (apply consistent_loadAll, consistent_empty).
  split; [|split].
  - apply NoDup_alt. intros i j f Hi Hj. apply Hc in Hi, Hj. congruence.
  - intros f H. apply started_from_requests in H as [H|H]; [|exact H].
    cbn in H. apply elem_of_nil in H. contradiction.
  - intros f Hf Hi.
    assert (Hs : is_Some (environments (loadAll files empty) !! f)).
    { clear Hc. generalize empty. induction files as [|x files IH]; intros s.
      - apply elem_of_nil in Hf. contradiction.
      - apply elem_of_cons in Hf as [->|Hf].
        + unfold loadAll. cbn. destruct (cached_after_load x s Hi) as [i E].
          exists i. apply cached_stays_loadAll, E.
        + unfold loadAll. cbn. apply (IH Hf). }
    destruct Hs as [i E]. exists i. split; [exact E | apply Hc, E].
Qed.
End EnvironmentExtras.

(* ===================================================================== *)
(** ** The colour outline pass *)
(* ===================================================================== *)

Section ColourPassExtras.
  Import ColorBlurOutlinePass.
  Local Open Scope Q_scope.

(** X18: the colour outline pass has no idle path: every [render] clears
    and draws the mask, blurs into its two blur targets and draws the
    composite into the read buffer.  Each blur target is cleared once and
    drawn twice, the second (vertical) draw sampling the texture of the very
    target it draws into.  Afterwards the clear state is the one at entry,
    the camera is on layer 0 and the override material is cleared. *)
Theorem colour_pass_always_draws rb p g :
  let g' := snd (render rb p g) in
  calls g' = calls g ++ colourCalls rb
               ++ (if renderToScreen p
                   then [CRenderQuad None (Some MaterialCopy) (Some rb)] else []) /\
  autoClear g' = autoClear g /\ clearColor g' = clearColor g /\
  clearAlpha g' = clearAlpha g /\
  cameraLayers g' = Layers.set 0 /\ overrideMaterial g' = None /\
  colorTexture (blurMaterial (fst (render rb p g))) = Some BlurRT /\
  colorTexture (blurHalfMaterial (fst (render rb p g))) = Some BlurHalfRT.
Proof.
  destruct p as [? ? ? ? ? ? ? ? [|]];
    cbn; rewrite <- ?app_assoc; repeat split; reflexivity.
Qed.

(** X19: [setSize] of the colour outline pass resizes all three targets and
    keeps both texel-size uniforms equal to the sizes of their targets; the
    half-resolution target is [round (w/4)] or one more wide, [round (h/4)] or
    one more high. *)
Theorem colour_pass_setSize_in_sync w h p :
  let p' := setSize w h p in
  maskRenderTarget p' = mkRenderTarget w h /\
  blurRenderTarget p' = mkRenderTarget (Js.Math_round (w / 2)) (Js.Math_round (h / 2)) /\
  texSize (blurMaterial p')
    = mkVector2 (width (blurRenderTarget p')) (height (blurRenderTarget p')) /\
  texSize (blurHalfMaterial p')
    = mkVector2 (width (blurHalfRenderTarget p')) (height (blurHalfRenderTarget p')) /\
  Js.Math_round (w / 4) <= width (blurHalfRenderTarget p') <= Js.Math_round (w / 4) + 1 /\
  Js.Math_round (h / 4) <= height (blurHalfRenderTarget p') <= Js.Math_round (h / 4) + 1.
Proof.
  cbn. repeat split; try reflexivity;
    first [apply (round_twice_near_quarter w) | apply (round_twice_near_quarter h)].
Qed.
End ColourPassExtras.
